(** * createAgentChat: the chat client over a shared agent connection

    A shallow embedding of [createAgentChat] (the SolidJS chat primitive):
    the broadcast handler [handleServerMessage], the fetch bridge [aiFetch]
    with its per-exchange listener [onMessage] and abort listener, the
    line decoder [parseSSEStream], and the public operations [sendMessage],
    [setMessages] and [clearHistory].

    Conventions of the model.
    - A JavaScript string is the sequence of its UTF-8 bytes ([string]).
    - A JavaScript value that comes from the wire is a [json] tree.
    - The client's mutable variables are the fields of [State]; every
      listener and public operation is a function from [State] to [State].
    - Promise jobs run to completion between two transport events, so the
      consumer loop of [sendMessage] is run inside the stream operation that
      feeds it ([controller_enqueue], [controller_close],
      [controller_error]). *)

From stdpp Require Import gmap strings list fin_maps.
From Stdlib Require Import ZArith Ascii.


(** ** Text *)

Module Text.

Definition LF : ascii := "010"%char.
Definition nl : string := String LF "".
Definition dquote : ascii := "034"%char.
Definition bslash : ascii := "092"%char.

(** [s.split("\n")]: the pieces between line feeds; never empty. *)
Fixpoint split_lines (s : string) : list string :=
  match s with
  | EmptyString => [""]
  | String c r =>
      if Ascii.eqb c LF then "" :: split_lines r
      else match split_lines r with
           | [] => [String c ""]
           | l :: ls => String c l :: ls
           end
  end.

(** [lines.pop()] leaves [removelast lines] and returns [last lines]. *)
Definition pop_init (ls : list string) : list string := removelast ls.
Definition pop_last (ls : list string) : string := List.last ls "".

(** [line.startsWith(p)] *)
Definition startsWith (p line : string) : bool := String.prefix p line.

(** [line.slice(n)] for [n] within the line or beyond it. *)
Fixpoint slice (n : nat) (s : string) : string :=
  match n, s with
  | O, _ => s
  | S k, EmptyString => EmptyString
  | S k, String _ r => slice k r
  end.

(** White space and line terminators removed by [String.prototype.trim],
    as UTF-8: TAB LF VT FF CR SP, U+00A0, U+1680, U+2000..U+200A, U+2028,
    U+2029, U+202F, U+205F, U+3000, U+FEFF. [ws_prefix s] is the rest of
    [s] after one such character at its head. *)
Definition ws_prefix (s : string) : option string :=
  match s with
  | String c r =>
      let n := nat_of_ascii c in
      if ((9 <=? n)%nat && (n <=? 13)%nat) || (n =? 32)%nat then Some r
      else match n, r with
      | 194%nat, String d r1 =>
          if (nat_of_ascii d =? 160)%nat then Some r1 else None
      | 225%nat, String d (String e r2) =>
          if (nat_of_ascii d =? 154)%nat && (nat_of_ascii e =? 128)%nat
          then Some r2 else None
      | 226%nat, String d (String e r2) =>
          let d := nat_of_ascii d in
          let e := nat_of_ascii e in
          if (d =? 128)%nat &&
             (((128 <=? e)%nat && (e <=? 138)%nat) || (e =? 168)%nat
              || (e =? 169)%nat || (e =? 175)%nat)
          then Some r2
          else if (d =? 129)%nat && (e =? 159)%nat then Some r2 else None
      | 227%nat, String d (String e r2) =>
          if (nat_of_ascii d =? 128)%nat && (nat_of_ascii e =? 128)%nat
          then Some r2 else None
      | 239%nat, String d (String e r2) =>
          if (nat_of_ascii d =? 187)%nat && (nat_of_ascii e =? 191)%nat
          then Some r2 else None
      | _, _ => None
      end
  | EmptyString => None
  end.

(** [blank s] holds when [s.trim()] is the empty string, i.e. when
    [s.trim()] is falsy. *)
Fixpoint blank_fuel (fuel : nat) (s : string) : bool :=
  match fuel with
  | O => false
  | S k =>
      match s with
      | EmptyString => true
      | _ => match ws_prefix s with
             | Some r => blank_fuel k r
             | None => false
             end
      end
  end.

Definition blank (s : string) : bool := blank_fuel (S (String.length s)) s.

(** Concatenation of a list of strings, in order. *)
Definition concat (l : list string) : string :=
  List.fold_right String.append "" l.

(** Reading aid for wire text in examples: every apostrophe stands for a
    double quote and every vertical bar for a line feed. *)
Fixpoint wire (s : string) : string :=
  match s with
  | EmptyString => EmptyString
  | String c r =>
      String (if Ascii.eqb c "'"%char then dquote
              else if Ascii.eqb c "|"%char then LF else c) (wire r)
  end.

End Text.

(** ** JSON values and [JSON.parse] *)

Module Json.
Import Text.
Local Open Scope Z_scope.

(** A value produced by [JSON.parse]. A number is kept as the exact
    decimal [m * 10^e] of its literal. An object is the list of its own
    properties in insertion order, without repeated keys when it comes from
    [JSON_parse]. *)
#[warnings="-register-all"]
Inductive json : Type :=
| JNull
| JBool (b : bool)
| JNum (m e : Z)
| JStr (s : string)
| JArr (items : list json)
| JObj (fields : list (string * json)).

Fixpoint assoc (k : string) (fs : list (string * json)) : option json :=
  match fs with
  | [] => None
  | (k', v) :: r => if String.eqb k k' then Some v else assoc k r
  end.

(** [{...o, k: v}] on the property list of [o]: an existing key keeps its
    place, a new key goes last. *)
Fixpoint obj_set (k : string) (v : json) (fs : list (string * json))
  : list (string * json) :=
  match fs with
  | [] => [(k, v)]
  | (k', v') :: r =>
      if String.eqb k k' then (k, v) :: r else (k', v') :: obj_set k v r
  end.

(** [o.k] for a value [o] other than [null]; [None] is [undefined].
    (Property reads on [null] throw and are handled where they occur.) *)
Definition get (k : string) (o : json) : option json :=
  match o with
  | JObj fs => assoc k fs
  | _ => None
  end.

(** JavaScript truthiness. *)
Definition truthy (v : json) : bool :=
  match v with
  | JNull => false
  | JBool b => b
  | JNum m _ => negb (m =? 0)%Z
  | JStr s => negb (String.eqb s "")
  | JArr _ | JObj _ => true
  end.

Definition truthy_opt (o : option json) : bool :=
  match o with Some v => truthy v | None => false end.

(** [o.k === s] for a string [s]. *)
Definition field_is (k : string) (o : json) (s : string) : bool :=
  match get k o with
  | Some (JStr t) => String.eqb t s
  | _ => false
  end.

(** [o.k] read at type string, the way the source casts it; [None] when
    the property is absent or is not a string. *)
Definition get_string (k : string) (o : json) : option string :=
  match get k o with
  | Some (JStr t) => Some t
  | _ => None
  end.

(** *** The reader *)

Definition is_ws (c : ascii) : bool :=
  let n := nat_of_ascii c in
  ((n =? 32) || (n =? 9) || (n =? 10) || (n =? 13))%nat.

Fixpoint skip_ws (s : string) : string :=
  match s with
  | String c r => if is_ws c then skip_ws r else s
  | EmptyString => s
  end.

Definition digit_of (c : ascii) : option Z :=
  let n := nat_of_ascii c in
  if ((48 <=? n) && (n <=? 57))%nat then Some (Z.of_nat n - 48) else None.

Definition hex_of (c : ascii) : option Z :=
  let n := Z.of_nat (nat_of_ascii c) in
  if ((48 <=? n) && (n <=? 57))%Z then Some (n - 48)
  else if ((65 <=? n) && (n <=? 70))%Z then Some (n - 55)
  else if ((97 <=? n) && (n <=? 102))%Z then Some (n - 87)
  else None.

Definition hex4 (a b c d : ascii) : option Z :=
  match hex_of a, hex_of b, hex_of c, hex_of d with
  | Some x, Some y, Some z, Some w => Some (((x * 16 + y) * 16 + z) * 16 + w)
  | _, _, _, _ => None
  end.

Definition byte (n : Z) : ascii := ascii_of_nat (Z.to_nat n).

(** UTF-8 encoding of a code point (a lone surrogate is encoded like any
    other three-byte code point). *)
Definition utf8 (n : Z) : string :=
  if (n <? 128)%Z then String (byte n) ""
  else if (n <? 2048)%Z then
    String (byte (192 + n / 64)) (String (byte (128 + n mod 64)) "")
  else if (n <? 65536)%Z then
    String (byte (224 + n / 4096))
      (String (byte (128 + (n / 64) mod 64))
         (String (byte (128 + n mod 64)) ""))
  else
    String (byte (240 + n / 262144))
      (String (byte (128 + (n / 4096) mod 64))
         (String (byte (128 + (n / 64) mod 64))
            (String (byte (128 + n mod 64)) ""))).

(** One unit of a string literal: a byte copied from the text, or the
    UTF-16 code unit of a [\uXXXX] escape. *)
Inductive unit_ : Type := Raw (c : ascii) | Esc (n : Z).

(** The characters of a string literal after its opening quote, up to the
    closing quote; the rest of the text follows. *)
Fixpoint string_units (s : string) : option (list unit_ * string) :=
  match s with
  | EmptyString => None
  | String c r =>
      if Ascii.eqb c dquote then Some ([], r)
      else if Ascii.eqb c bslash then
        match r with
        | String e r1 =>
            let lit (x : ascii) :=
              match string_units r1 with
              | Some (us, rest) => Some (Raw x :: us, rest)
              | None => None
              end in
            if Ascii.eqb e dquote then lit dquote
            else if Ascii.eqb e bslash then lit bslash
            else if Ascii.eqb e "/"%char then lit "/"%char
            else if Ascii.eqb e "b"%char then lit "008"%char
            else if Ascii.eqb e "f"%char then lit "012"%char
            else if Ascii.eqb e "n"%char then lit "010"%char
            else if Ascii.eqb e "r"%char then lit "013"%char
            else if Ascii.eqb e "t"%char then lit "009"%char
            else if Ascii.eqb e "u"%char then
              match r1 with
              | String h1 (String h2 (String h3 (String h4 r2))) =>
                  match hex4 h1 h2 h3 h4, string_units r2 with
                  | Some n, Some (us, rest) => Some (Esc n :: us, rest)
                  | _, _ => None
                  end
              | _ => None
              end
            else None
        | EmptyString => None
        end
      else if (nat_of_ascii c <? 32)%nat then None
      else match string_units r with
           | Some (us, rest) => Some (Raw c :: us, rest)
           | None => None
           end
  end.

Definition is_high (n : Z) : bool := ((55296 <=? n) && (n <=? 56319))%Z.
Definition is_low (n : Z) : bool := ((56320 <=? n) && (n <=? 57343))%Z.

Fixpoint units_text (us : list unit_) : string :=
  match us with
  | [] => ""
  | Raw c :: t => String c (units_text t)
  | Esc hi :: t =>
      match t with
      | Esc lo :: t2 =>
          if is_high hi && is_low lo
          then utf8 (65536 + (hi - 55296) * 1024 + (lo - 56320))
                 +:+ units_text t2
          else utf8 hi +:+ units_text t
      | _ => utf8 hi +:+ units_text t
      end
  end.

Definition string_lit (s : string) : option (string * string) :=
  match string_units s with
  | Some (us, rest) => Some (units_text us, rest)
  | None => None
  end.

(** Decimal digits at the head of [s]: the value they add to [acc], how
    many there are, and the rest. *)
Fixpoint digits (s : string) (acc : Z) (cnt : nat) : Z * nat * string :=
  match s with
  | String c r =>
      match digit_of c with
      | Some d => digits r (acc * 10 + d) (S cnt)
      | None => (acc, cnt, s)
      end
  | EmptyString => (acc, cnt, s)
  end.

Definition number_lit (s : string) : option (json * string) :=
  let '(neg, s1) :=
    match s with
    | String "-"%char r => (true, r)
    | _ => (false, s)
    end in
  let int_part :=
    match s1 with
    | String "0"%char r => Some (0, r)
    | _ => let '(v, n, r) := digits s1 0 O in
           match n with O => None | _ => Some (v, r) end
    end in
  match int_part with
  | None => None
  | Some (i, s2) =>
      let frac :=
        match s2 with
        | String "."%char r =>
            let '(v, n, r') := digits r i O in
            match n with O => None | _ => Some (v, - Z.of_nat n, r') end
        | _ => Some (i, 0, s2)
        end in
      match frac with
      | None => None
      | Some (m, e, s3) =>
          let m := if neg then - m else m in
          match s3 with
          | String c r =>
              if Ascii.eqb c "e"%char || Ascii.eqb c "E"%char then
                let '(eneg, r1) :=
                  match r with
                  | String "-"%char r' => (true, r')
                  | String "+"%char r' => (false, r')
                  | _ => (false, r)
                  end in
                let '(x, n, r2) := digits r1 0 O in
                match n with
                | O => None
                | _ => Some (JNum m (e + (if eneg then - x else x)), r2)
                end
              else Some (JNum m e, s3)
          | EmptyString => Some (JNum m e, s3)
          end
      end
  end.

(** [expect w s]: the rest of [s] after the word [w]. *)
Fixpoint expect (w s : string) : option string :=
  match w, s with
  | EmptyString, _ => Some s
  | String a w', String b s' => if Ascii.eqb a b then expect w' s' else None
  | String _ _, EmptyString => None
  end.

Fixpoint parse_value (fuel : nat) (s : string) {struct fuel}
  : option (json * string) :=
  match fuel with
  | O => None
  | S k =>
      match skip_ws s with
      | EmptyString => None
      | String c r =>
          if Ascii.eqb c "{"%char then
            match skip_ws r with
            | String "}"%char r' => Some (JObj [], r')
            | r' => match parse_members k r' [] with
                    | Some (fs, rest) => Some (JObj fs, rest)
                    | None => None
                    end
            end
          else if Ascii.eqb c "["%char then
            match skip_ws r with
            | String "]"%char r' => Some (JArr [], r')
            | r' => match parse_elements k r' [] with
                    | Some (vs, rest) => Some (JArr vs, rest)
                    | None => None
                    end
            end
          else if Ascii.eqb c dquote then
            match string_lit r with
            | Some (t, rest) => Some (JStr t, rest)
            | None => None
            end
          else if Ascii.eqb c "t"%char then
            match expect "rue" r with
            | Some rest => Some (JBool true, rest) | None => None end
          else if Ascii.eqb c "f"%char then
            match expect "alse" r with
            | Some rest => Some (JBool false, rest) | None => None end
          else if Ascii.eqb c "n"%char then
            match expect "ull" r with
            | Some rest => Some (JNull, rest) | None => None end
          else number_lit (String c r)
      end
  end
with parse_elements (fuel : nat) (s : string) (acc : list json) {struct fuel}
  : option (list json * string) :=
  match fuel with
  | O => None
  | S k =>
      match parse_value k s with
      | None => None
      | Some (v, r) =>
          match skip_ws r with
          | String ","%char r' => parse_elements k r' (acc ++ [v])
          | String "]"%char r' => Some (acc ++ [v], r')
          | _ => None
          end
      end
  end
with parse_members (fuel : nat) (s : string) (acc : list (string * json))
  {struct fuel} : option (list (string * json) * string) :=
  match fuel with
  | O => None
  | S k =>
      match skip_ws s with
      | String c r =>
          if Ascii.eqb c dquote then
            match string_lit r with
            | None => None
            | Some (key, r1) =>
                match skip_ws r1 with
                | String ":"%char r2 =>
                    match parse_value k r2 with
                    | None => None
                    | Some (v, r3) =>
                        match skip_ws r3 with
                        | String ","%char r4 =>
                            parse_members k r4 (obj_set key v acc)
                        | String "}"%char r4 => Some (obj_set key v acc, r4)
                        | _ => None
                        end
                    end
                | _ => None
                end
            end
          else None
      | EmptyString => None
      end
  end.

(** [JSON.parse(text)]; [None] when it throws a [SyntaxError]. *)
Definition JSON_parse (text : string) : option json :=
  match parse_value (2 * String.length text + 2)%nat text with
  | Some (v, rest) =>
      match skip_ws rest with
      | EmptyString => Some v
      | _ => None
      end
  | None => None
  end.

End Json.

(** ** The client state *)

Import Text Json.

Module MessageType.
(** Modelled from the spec: the enum [MessageType] of [./types] is not among
    the sources. The five discriminators are the frame types of the spec's
    wire table; the client only compares them for equality. *)
Definition CF_AGENT_CHAT_CLEAR : string := "chat-clear".
Definition CF_AGENT_CHAT_MESSAGES : string := "chat-messages".
Definition CF_AGENT_USE_CHAT_REQUEST : string := "chat-request".
Definition CF_AGENT_USE_CHAT_RESPONSE : string := "chat-response".
Definition CF_AGENT_CHAT_REQUEST_CANCEL : string := "chat-request-cancel".
End MessageType.
Import MessageType.

(** [status]: ["ready" | "streaming" | "error"]. *)
Inductive Status : Type := StatusReady | StatusStreaming | StatusError.

(** The value held by [error]: an [Error] built from a server message, or
    the [TypeError] raised by a property read on [null]. *)
Inductive ErrorValue : Type :=
| ErrorOf (message : string)
| TypeError.

(** An entry of [remoteStreams]. *)
Record RemoteStream : Type := {
  messageId : string;
  textContent : string
}.

(** The frames handed to [agent.send], before [JSON.stringify]. *)
Record RequestBody : Type := {
  rb_id : string;
  rb_messages : list json;
  rb_trigger : string
}.

Inductive Outgoing : Type :=
| ChatRequestCancel (id : string)
| UseChatRequest (id : string) (url : string) (method : string)
    (body : RequestBody)
| ChatClear
| ChatMessages (messages : list json).

(** State of a [ReadableStreamDefaultController]: [Closed] once [close()]
    has been called, [Errored] once [error(e)] has. *)
Inductive Ctrl : Type := Readable | Closed | Errored (reason : string).

(** The locals of the loop in [sendMessage] together with the [buffer] of
    [parseSSEStream]. *)
Record Loop : Type := {
  assistantMessageId : option string;
  loop_textContent : string;
  buffer : string
}.

(** The reader of the response body: still in the [for await] loop, out of
    it after the end of the stream, or out of it through [catch]. *)
Inductive Reader : Type := Reading (l : Loop) | Finished | Failed.

(** One call of [aiFetch]. [x_signal] is [init.signal]: [None] when no
    signal is passed, [Some b] otherwise, [b] telling whether it has fired.
    [x_delivered] lists every chunk enqueued on the stream, oldest first;
    [x_unread] those of them that no reader has taken. *)
Record Exchange : Type := {
  x_id : string;
  x_signal : option bool;
  x_controller : Ctrl;
  x_aborted : bool;
  x_delivered : list string;
  x_unread : list string;
  x_reader : Reader
}.

(** The listeners of the agent's [message] event. *)
Inductive Listener : Type := HandleServerMessage | OnMessage (n : nat).

#[global] Instance Listener_eq_dec : EqDecision Listener.
Proof. solve_decision. Defined.

(** [agent.name] and the result of [getAgentUrl()]. *)
Record AgentInfo : Type := { name : string; url : string }.

Record State : Type := {
  agent : AgentInfo;
  messages : list json;
  status : Status;
  error : option ErrorValue;
  localRequestIds : gset string;
  remoteStreams : gmap string RemoteStream;
  listeners : list Listener;
  sent : list Outgoing;
  exchanges : list Exchange;
  uncaught : nat
}.

Definition setMessagesStore (v : list json) (st : State) : State :=
  {| agent := agent st; messages := v; status := status st;
     error := error st; localRequestIds := localRequestIds st;
     remoteStreams := remoteStreams st; listeners := listeners st;
     sent := sent st; exchanges := exchanges st; uncaught := uncaught st |}.

Definition setStatus (v : Status) (st : State) : State :=
  {| agent := agent st; messages := messages st; status := v;
     error := error st; localRequestIds := localRequestIds st;
     remoteStreams := remoteStreams st; listeners := listeners st;
     sent := sent st; exchanges := exchanges st; uncaught := uncaught st |}.

Definition setError (v : option ErrorValue) (st : State) : State :=
  {| agent := agent st; messages := messages st; status := status st;
     error := v; localRequestIds := localRequestIds st;
     remoteStreams := remoteStreams st; listeners := listeners st;
     sent := sent st; exchanges := exchanges st; uncaught := uncaught st |}.

Definition set_localRequestIds (v : gset string) (st : State) : State :=
  {| agent := agent st; messages := messages st; status := status st;
     error := error st; localRequestIds := v;
     remoteStreams := remoteStreams st; listeners := listeners st;
     sent := sent st; exchanges := exchanges st; uncaught := uncaught st |}.

Definition set_remoteStreams (v : gmap string RemoteStream) (st : State)
  : State :=
  {| agent := agent st; messages := messages st; status := status st;
     error := error st; localRequestIds := localRequestIds st;
     remoteStreams := v; listeners := listeners st;
     sent := sent st; exchanges := exchanges st; uncaught := uncaught st |}.

Definition set_listeners (v : list Listener) (st : State) : State :=
  {| agent := agent st; messages := messages st; status := status st;
     error := error st; localRequestIds := localRequestIds st;
     remoteStreams := remoteStreams st; listeners := v;
     sent := sent st; exchanges := exchanges st; uncaught := uncaught st |}.

(** [agent.send(JSON.stringify(frame))] *)
Definition send (frame : Outgoing) (st : State) : State :=
  {| agent := agent st; messages := messages st; status := status st;
     error := error st; localRequestIds := localRequestIds st;
     remoteStreams := remoteStreams st; listeners := listeners st;
     sent := sent st ++ [frame]; exchanges := exchanges st;
     uncaught := uncaught st |}.

Definition set_exchanges (v : list Exchange) (st : State) : State :=
  {| agent := agent st; messages := messages st; status := status st;
     error := error st; localRequestIds := localRequestIds st;
     remoteStreams := remoteStreams st; listeners := listeners st;
     sent := sent st; exchanges := v; uncaught := uncaught st |}.

(** An exception that leaves a listener: the dispatcher reports it and goes
    on with the next listener. *)
Definition throw (st : State) : State :=
  {| agent := agent st; messages := messages st; status := status st;
     error := error st; localRequestIds := localRequestIds st;
     remoteStreams := remoteStreams st; listeners := listeners st;
     sent := sent st; exchanges := exchanges st;
     uncaught := S (uncaught st) |}.

Definition set_exchange (n : nat) (e : Exchange) (st : State) : State :=
  set_exchanges (<[n := e]> (exchanges st)) st.

Definition with_controller (c : Ctrl) (e : Exchange) : Exchange :=
  {| x_id := x_id e; x_signal := x_signal e; x_controller := c;
     x_aborted := x_aborted e; x_delivered := x_delivered e;
     x_unread := x_unread e; x_reader := x_reader e |}.

Definition with_aborted (b : bool) (e : Exchange) : Exchange :=
  {| x_id := x_id e; x_signal := x_signal e; x_controller := x_controller e;
     x_aborted := b; x_delivered := x_delivered e;
     x_unread := x_unread e; x_reader := x_reader e |}.

Definition with_signal (s : option bool) (e : Exchange) : Exchange :=
  {| x_id := x_id e; x_signal := s; x_controller := x_controller e;
     x_aborted := x_aborted e; x_delivered := x_delivered e;
     x_unread := x_unread e; x_reader := x_reader e |}.

Definition with_delivered (d : list string) (e : Exchange) : Exchange :=
  {| x_id := x_id e; x_signal := x_signal e; x_controller := x_controller e;
     x_aborted := x_aborted e; x_delivered := d;
     x_unread := x_unread e; x_reader := x_reader e |}.

Definition with_unread (u : list string) (e : Exchange) : Exchange :=
  {| x_id := x_id e; x_signal := x_signal e; x_controller := x_controller e;
     x_aborted := x_aborted e; x_delivered := x_delivered e;
     x_unread := u; x_reader := x_reader e |}.

Definition with_reader (r : Reader) (e : Exchange) : Exchange :=
  {| x_id := x_id e; x_signal := x_signal e; x_controller := x_controller e;
     x_aborted := x_aborted e; x_delivered := x_delivered e;
     x_unread := x_unread e; x_reader := r |}.

(** The client just after [createAgentChat]: the broadcast handler is the
    only listener. *)
Definition initial (a : AgentInfo) : State :=
  {| agent := a; messages := []; status := StatusReady; error := None;
     localRequestIds := ∅; remoteStreams := ∅;
     listeners := [HandleServerMessage]; sent := []; exchanges := [];
     uncaught := 0 |}.

(** ** The message store *)

(** [{ id: messageId, role: "assistant", parts: [] }] *)
Definition assistantMessage (mid : string) : json :=
  JObj [("id", JStr mid); ("role", JStr "assistant"); ("parts", JArr [])].

(** [{ type: "text", text }] *)
Definition textPart (text : string) : json :=
  JObj [("type", JStr "text"); ("text", JStr text)].

(** [{ id: messageId, role: message.role, parts: message.parts }] for a
    user message whose parts are text parts. *)
Definition userMessage (mid : string) (parts : list string) : json :=
  JObj [("id", JStr mid); ("role", JStr "user");
        ("parts", JArr (map textPart parts))].

(** Result of [prev.findIndex((m) => m.id === mid)]; reading [m.id] on a
    [null] element throws. *)
Inductive Find : Type := Found (idx : nat) | NotFound | FindThrows.

Fixpoint findIndex (mid : string) (prev : list json) : Find :=
  match prev with
  | [] => NotFound
  | JNull :: _ => FindThrows
  | m :: r =>
      if field_is "id" m mid then Found 0
      else match findIndex mid r with
           | Found i => Found (S i)
           | other => other
           end
  end.

(** [{ ...m, parts: [{ type: "text", text }] }] *)
Definition withText (text : string) (m : json) : json :=
  match m with
  | JObj fs => JObj (obj_set "parts" (JArr [textPart text]) fs)
  | _ => JObj [("parts", JArr [textPart text])]
  end.

(** The updater passed to [setMessagesStore] by both text-delta branches:
    the new list, or [None] when [findIndex] throws. *)
Definition applyText (mid text : string) (prev : list json)
  : option (list json) :=
  match findIndex mid prev with
  | Found idx =>
      match prev !! idx with
      | Some m => Some (<[idx := withText text m]> prev)
      | None => Some prev
      end
  | NotFound => Some prev
  | FindThrows => None
  end.

(** A property of a frame or chunk read at type string and tested for
    truthiness, as in [chunk.type === "start" && chunk.messageId]. The
    event types declare [messageId] and [delta] as strings, and the model
    follows them: a value of another type is read as absent. The
    statements about start and text-delta events therefore say that the
    field is a string, or that it is not truthy at any type. *)
Definition truthy_string (k : string) (o : json) : option string :=
  match get_string k o with
  | Some s => if String.eqb s "" then None else Some s
  | None => None
  end.

(** ** [parseSSEStream] and the loop of [sendMessage] *)

(** The value yielded for one complete line, if any. *)
Definition line_event (line : string) : option json :=
  if startsWith "data: " line then
    let jsonStr := slice 6 line in
    if blank jsonStr then None else JSON_parse jsonStr
  else None.

(** One turn of the [while] loop of [parseSSEStream] on the decoded text of
    a chunk: the values yielded, in order, and the new [buffer]. *)
Definition parseSSEStream_read (buf chunk : string) : list json * string :=
  let lines := split_lines (buf +:+ chunk) in
  (omap line_event (pop_init lines), pop_last lines).

(** All the values [parseSSEStream] yields on a list of chunks. *)
Fixpoint parseSSEStream (buf : string) (chunks : list string) : list json :=
  match chunks with
  | [] => []
  | c :: r =>
      let '(evs, buf') := parseSSEStream_read buf c in
      evs ++ parseSSEStream buf' r
  end.

Definition loop0 : Loop :=
  {| assistantMessageId := None; loop_textContent := ""; buffer := "" |}.

(** The body of the [for await] loop of [sendMessage] on one yielded value;
    [None] when it throws. *)
Definition loop_body (chunk : json) (l : Loop) (prev : list json)
  : option (Loop * list json) :=
  match chunk with
  | JNull => None
  | _ =>
      match (if field_is "type" chunk "start"
             then truthy_string "messageId" chunk else None) with
      | Some mid =>
          Some ({| assistantMessageId := Some mid;
                   loop_textContent := loop_textContent l;
                   buffer := buffer l |},
                prev ++ [assistantMessage mid])
      | None =>
          match (if field_is "type" chunk "text-delta"
                 then truthy_string "delta" chunk else None) with
          | Some delta =>
              let text := loop_textContent l +:+ delta in
              let l' := {| assistantMessageId := assistantMessageId l;
                           loop_textContent := text;
                           buffer := buffer l |} in
              match assistantMessageId l with
              | Some mid =>
                  match applyText mid text prev with
                  | Some upd => Some (l', upd)
                  | None => None
                  end
              | None => Some (l', prev)
              end
          | None => Some (l, prev)
          end
      end
  end.

(** The loop body over the values yielded for one chunk: the loop state, or
    [None] once an iteration has thrown, and the message list so far. *)
Fixpoint loop_events (evs : list json) (l : Loop) (prev : list json)
  : option Loop * list json :=
  match evs with
  | [] => (Some l, prev)
  | ev :: r =>
      match loop_body ev l prev with
      | Some (l', prev') => loop_events r l' prev'
      | None => (None, prev)
      end
  end.

Definition with_buffer (buf : string) (l : Loop) : Loop :=
  {| assistantMessageId := assistantMessageId l;
     loop_textContent := loop_textContent l;
     buffer := buf |}.

(** The reader takes one chunk from the response body. *)
Definition loop_read (chunk : string) (l : Loop) (prev : list json)
  : option Loop * list json :=
  let '(evs, buf') := parseSSEStream_read (buffer l) chunk in
  match loop_events evs l prev with
  | (Some l', prev') => (Some (with_buffer buf' l'), prev')
  | (None, prev') => (None, prev')
  end.

(** The reader over a list of chunks, until an iteration throws. *)
Fixpoint loop_reads (chunks : list string) (l : Loop) (prev : list json)
  : option Loop * list json :=
  match chunks with
  | [] => (Some l, prev)
  | c :: r =>
      match loop_read c l prev with
      | (Some l', prev') => loop_reads r l' prev'
      | (None, prev') => (None, prev')
      end
  end.

(** A [start] event carrying the message identifier [mid]. *)
Definition is_start (ev : json) (mid : string) : Prop :=
  field_is "type" ev "start" = true ∧ get "messageId" ev = Some (JStr mid).

(** A [text-delta] event carrying the fragment [delta]. *)
Definition is_text_delta (ev : json) (delta : string) : Prop :=
  field_is "type" ev "text-delta" = true ∧ get "delta" ev = Some (JStr delta).

(** The assistant message [mid] once the text [text] has been streamed
    into it: a single text part, and no part while the text is empty. *)
Definition streamed (mid text : string) : json :=
  if String.eqb text "" then assistantMessage mid
  else JObj [("id", JStr mid); ("role", JStr "assistant");
             ("parts", JArr [textPart text])].

(** ** The stream of an exchange

    [aiFetch] pipes its [ReadableStream] through an identity
    [TransformStream] whose [flush] removes the exchange's listener.
    - A chunk enqueued while the reader is in its loop is read at once.
    - When the stream is closed, the pipe closes the transform, which runs
      [flush], as soon as every enqueued chunk has been read.
    - When the stream is errored, the pipe aborts the transform: [flush]
      does not run, and [cancel] of the source does not run either, since
      nobody cancels the response body. *)

(** [currentAgent.removeEventListener("message", onMessage)], the body of
    both [cancel(_reason)] and [flush()]. *)
Definition removeEventListener (n : nat) (st : State) : State :=
  set_listeners (filter (λ l, l ≠ OnMessage n) (listeners st)) st.

Definition flush (n : nat) (st : State) : State := removeEventListener n st.

(** [controller.enqueue(chunk)]; the flag tells whether it threw. *)
Definition controller_enqueue (n : nat) (chunk : string) (st : State)
  : State * bool :=
  match exchanges st !! n with
  | None => (st, true)
  | Some e =>
      match x_controller e with
      | Readable =>
          let e1 := with_delivered (x_delivered e ++ [chunk]) e in
          match x_reader e with
          | Reading l =>
              match loop_read chunk l (messages st) with
              | (Some l', prev') =>
                  (set_exchange n (with_reader (Reading l') e1)
                     (setMessagesStore prev' st), false)
              | (None, prev') =>
                  (* the loop body threw: [catch] of [sendMessage] *)
                  (setStatus StatusError
                     (setError (Some TypeError)
                        (set_exchange n (with_reader Failed e1)
                           (setMessagesStore prev' st))), false)
              end
          | _ =>
              (set_exchange n (with_unread (x_unread e ++ [chunk]) e1) st,
               false)
          end
      | _ => (st, true)
      end
  end.

(** [try { controller.close() } catch {}] *)
Definition controller_close (n : nat) (st : State) : State :=
  match exchanges st !! n with
  | None => st
  | Some e =>
      match x_controller e with
      | Readable =>
          let e1 := with_controller Closed e in
          match x_reader e with
          | Reading _ =>
              (* end of the stream: [flush], then [setStatus("ready")] *)
              setStatus StatusReady
                (flush n (set_exchange n (with_reader Finished e1) st))
          | _ =>
              match x_unread e with
              | [] => flush n (set_exchange n e1 st)
              | _ => set_exchange n e1 st
              end
          end
      | _ => st
      end
  end.

(** [controller.error(new Error(message))] *)
Definition controller_error (n : nat) (message : string) (st : State)
  : State :=
  match exchanges st !! n with
  | None => st
  | Some e =>
      match x_controller e with
      | Readable =>
          let e1 := with_unread [] (with_controller (Errored message) e) in
          match x_reader e with
          | Reading _ =>
              (* the pending read rejects: [catch] of [sendMessage] *)
              setStatus StatusError
                (setError (Some (ErrorOf message))
                   (set_exchange n (with_reader Failed e1) st))
          | _ => set_exchange n e1 st
          end
      | _ => st
      end
  end.

(** [abortController.abort()] *)
Definition abortController_abort (n : nat) (st : State) : State :=
  match exchanges st !! n with
  | None => st
  | Some e => set_exchange n (with_aborted true e) st
  end.

(** [localRequestIds.delete(id)] *)
Definition localRequestIds_delete (id : string) (st : State) : State :=
  set_localRequestIds (localRequestIds st ∖ {[id]}) st.

(** ** The listeners *)

(** The [try] block of the chat-response branch of [handleServerMessage],
    for a frame [data] with identifier [id] that is not locally owned.
    Whatever it throws is caught and ignored, which leaves the state as it
    is at the throw. [data.body] is a string by the frame type; a frame
    without it makes [JSON.parse] throw. A body of another type, which
    [JSON.parse] would first turn into text, is outside the model: the
    statements that depend on it say [body_is_text]. *)
Definition remote_chunk (id : string) (data : json) (st : State) : State :=
  match get "body" data with
  | Some (JStr body) =>
      match JSON_parse body with
      | None | Some JNull => st
      | Some chunk =>
          match (if field_is "type" chunk "start"
                 then truthy_string "messageId" chunk else None) with
          | Some mid =>
              setMessagesStore (messages st ++ [assistantMessage mid])
                (set_remoteStreams
                   (<[id := {| messageId := mid; textContent := "" |}]>
                      (remoteStreams st)) st)
          | None =>
              match (if field_is "type" chunk "text-delta"
                     then truthy_string "delta" chunk else None) with
              | Some delta =>
                  match remoteStreams st !! id with
                  | Some stream =>
                      let text := textContent stream +:+ delta in
                      let st1 :=
                        set_remoteStreams
                          (<[id := {| messageId := messageId stream;
                                      textContent := text |}]>
                             (remoteStreams st)) st in
                      match applyText (messageId stream) text (messages st)
                      with
                      | Some upd => setMessagesStore upd st1
                      | None => st1
                      end
                  | None => st
                  end
              | None =>
                  if field_is "type" chunk "finish"
                     || truthy_opt (get "done" data)
                  then set_remoteStreams (delete id (remoteStreams st)) st
                  else st
              end
          end
      end
  | _ => st
  end.

(** [handleServerMessage(event)] on [event.data = raw]. The identifier of a
    chat-response frame is a string by the frame type; a frame of that type
    without one is left alone. *)
Definition handleServerMessage (raw : string) (st : State) : State :=
  match JSON_parse raw with
  | None => st
  | Some JNull => throw st
  | Some data =>
      if field_is "type" data CF_AGENT_CHAT_CLEAR then
        setMessagesStore [] st
      else if field_is "type" data CF_AGENT_CHAT_MESSAGES then
        match get "messages" data with
        | Some (JArr ms) => setMessagesStore ms st
        | _ => st
        end
      else if field_is "type" data CF_AGENT_USE_CHAT_RESPONSE then
        match get_string "id" data with
        | Some id =>
            if bool_decide (id ∈ localRequestIds st) then st
            else remote_chunk id data st
        | None => st
        end
      else st
  end.

(** The chunk [onMessage] enqueues for a frame body:
    [`data: ${data.body}\n\n`]. *)
Definition sse_frame (body : string) : string :=
  "data: " +:+ body +:+ nl +:+ nl.

(** The message of [new Error(data.body)]. *)
Definition error_message (data : json) : string :=
  match get "body" data with
  | Some (JStr body) => body
  | _ => ""
  end.

(** [if (data.body?.trim()) controller.enqueue(...)] in [onMessage]; the
    flag tells whether the statement threw. *)
Definition enqueue_body (n : nat) (data : json) (st : State) : State * bool :=
  match get "body" data with
  | None | Some JNull => (st, false)
  | Some (JStr body) =>
      if blank body then (st, false)
      else controller_enqueue n (sse_frame body) st
  | Some _ => (st, true)   (* [trim] is not a function *)
  end.

(** The body of [onMessage] for the exchange [n] with identifier [id], on
    the parsed frame [data] (which is not [null]). *)
Definition onMessage_frame (n : nat) (id : string) (data : json) (st : State)
  : State :=
  if field_is "type" data CF_AGENT_USE_CHAT_RESPONSE
     && field_is "id" data id then
    if truthy_opt (get "error" data) then
      localRequestIds_delete id
        (abortController_abort n
           (controller_error n (error_message data) st))
    else
      match enqueue_body n data st with
      | (st1, true) => throw st1
      | (st1, false) =>
          if truthy_opt (get "done" data) then
            localRequestIds_delete id
              (abortController_abort n (controller_close n st1))
          else st1
      end
  else st.

(** [onMessage(event)] of exchange [n] on [event.data = raw]. *)
Definition onMessage (n : nat) (raw : string) (st : State) : State :=
  match exchanges st !! n with
  | None => st
  | Some e =>
      match JSON_parse raw with
      | None => st
      | Some JNull => throw st
      | Some data => onMessage_frame n (x_id e) data st
      end
  end.

(** The listener [aiFetch] adds to [init.signal] for ["abort"]. *)
Definition abort_listener (n : nat) (st : State) : State :=
  match exchanges st !! n with
  | None => st
  | Some e =>
      let id := x_id e in
      localRequestIds_delete id
        (controller_close n
           (abortController_abort n (send (ChatRequestCancel id) st)))
  end.

(** The caller aborts the signal it passed to [aiFetch]: the platform runs
    the abort listener the first time, and never again. *)
Definition cancel (n : nat) (st : State) : State :=
  match exchanges st !! n with
  | Some e =>
      match x_signal e with
      | Some false =>
          abort_listener n (set_exchange n (with_signal (Some true) e) st)
      | _ => st
      end
  | None => st
  end.

(** The underlying source's [cancel(_reason)]. *)
Definition stream_cancel (n : nat) (st : State) : State :=
  removeEventListener n st.

(** ** The operations *)

(** [aiFetch(input, init)] with [id = nanoid(8)]: the new state and the
    index of the exchange. The response body is read by the loop of
    [sendMessage], its only caller. *)
Definition new_exchange (id : string) (signal : option bool) : Exchange :=
  {| x_id := id; x_signal := signal; x_controller := Readable;
     x_aborted := false; x_delivered := []; x_unread := [];
     x_reader := Reading loop0 |}.

Definition aiFetch (id input method : string) (body : RequestBody)
    (signal : option bool) (st : State) : State * nat :=
  let n := length (exchanges st) in
  let e := new_exchange id signal in
  let st1 := set_localRequestIds ({[id]} ∪ localRequestIds st) st in
  let st2 := set_listeners (listeners st1 ++ [OnMessage n]) st1 in
  let st3 := send (UseChatRequest id input method body) st2 in
  (set_exchanges (exchanges st3 ++ [e]) st3, n).

(** [agent.name || "default"] *)
Definition agent_name (st : State) : string :=
  if String.eqb (name (agent st)) "" then "default" else name (agent st).

(** [sendMessage(message)] up to its first wait for the response body,
    with [messageId = nanoid()] and the exchange identifier [id]. *)
Definition sendMessage (messageId id : string) (parts : list string)
    (st : State) : State :=
  let um := userMessage messageId parts in
  let existingMessages := messages st in
  let st1 := setMessagesStore (messages st ++ [um]) st in
  let st2 := setError None (setStatus StatusStreaming st1) in
  let requestBody :=
    {| rb_id := agent_name st2;
       rb_messages := existingMessages ++ [um];
       rb_trigger := "submit-message" |} in
  fst (aiFetch id (url (agent st2)) "POST" requestBody None st2).

(** [clearHistory()] *)
Definition clearHistory (st : State) : State :=
  send ChatClear (setMessagesStore [] st).

(** [setMessages(messagesOrFn)]: an array on the left, an updater on the
    right. *)
Definition setMessages
    (messagesOrFn : list json + (list json → list json)) (st : State)
  : State :=
  let st1 :=
    match messagesOrFn with
    | inr fn => setMessagesStore (fn (messages st)) st
    | inl ms => setMessagesStore ms st
    end in
  send (ChatMessages
          (match messagesOrFn with inl ms => ms | inr _ => [] end)) st1.

(** ** The transport *)

Definition invoke (l : Listener) (raw : string) (st : State) : State :=
  match l with
  | HandleServerMessage => handleServerMessage raw st
  | OnMessage n => onMessage n raw st
  end.

(** A [message] event with data [raw]: the listeners registered when the
    dispatch starts run in registration order, except those removed in the
    meantime. *)
Definition dispatch (raw : string) (s : State) (l : Listener) : State :=
  if bool_decide (l ∈ listeners s) then invoke l raw s else s.

Definition deliver (raw : string) (st : State) : State :=
  foldl (dispatch raw) st (listeners st).

(** What can happen to the client. *)
Inductive Action : Type :=
| Deliver (raw : string)
| SendMessage (messageId id : string) (parts : list string)
| Cancel (n : nat)
| SetMessages (messagesOrFn : list json + (list json → list json))
| ClearHistory.

Definition step (st : State) (a : Action) : State :=
  match a with
  | Deliver raw => deliver raw st
  | SendMessage mid id parts => sendMessage mid id parts st
  | Cancel n => cancel n st
  | SetMessages m => setMessages m st
  | ClearHistory => clearHistory st
  end.

Definition run (st : State) (acts : list Action) : State :=
  foldl step st acts.

(** ** The agent's address, the history bootstrap and the broadcast
    handler's registration *)

(** The rest of [s] after the prefix [p], when [s] starts with [p]. *)
Fixpoint strip_prefix (p s : string) : option string :=
  match p, s with
  | EmptyString, _ => Some s
  | String a p', String b s' =>
      if Ascii.eqb a b then strip_prefix p' s' else None
  | String _ _, EmptyString => None
  end.

(** [s.includes(pat)] *)
Fixpoint includes (pat s : string) : bool :=
  match strip_prefix pat s with
  | Some _ => true
  | None =>
      match s with
      | EmptyString => false
      | String _ r => includes pat r
      end
  end.

(** [s.replace(pat, rep)] for a string pattern and a replacement without
    [$]: the first occurrence of [pat] is replaced. *)
Fixpoint replace (pat rep s : string) : string :=
  match strip_prefix pat s with
  | Some rest => rep +:+ rest
  | None =>
      match s with
      | EmptyString => EmptyString
      | String c r => String c (replace pat rep r)
      end
  end.

(** [getAgentUrl()], given [agent._url] and [agent._pkurl] ([None] for
    [null] or [undefined]). *)
Definition getAgentUrl (_url _pkurl : option string) : string :=
  let rawUrl := match _url with Some u => Some u | None => _pkurl end in
  match rawUrl with
  | None => "/api/chat"
  | Some u =>
      if String.eqb u "" then "/api/chat"
      else replace "wss://" "https://" (replace "ws://" "http://" u)
  end.

(** [pathname.replace(/\/+$/, "")] *)
Fixpoint strip_trailing_slashes (s : string) : string :=
  match s with
  | EmptyString => EmptyString
  | String c r =>
      match strip_trailing_slashes r with
      | EmptyString => if Ascii.eqb c "/"%char then EmptyString
                       else String c EmptyString
      | r' => String c r'
      end
  end.

(** The path [fetchHistory] asks for:
    [url.pathname.replace(/\/+$/, "") + "/get-messages"]. *)
Definition history_pathname (pathname : string) : string :=
  strip_trailing_slashes pathname +:+ "/get-messages".

(** The end of [fetchHistory]. [response] is [None] when [fetch] or
    [res.json()] threw, and otherwise gives [res.ok] and the parsed body. *)
Definition fetchHistory (response : option (bool * json)) (st : State)
  : State :=
  match response with
  | Some (true, JArr history) => setMessagesStore history st
  | _ => st
  end.

(** The effect that registers the broadcast handler; the agent keeps one
    registration per callback. *)
Definition addEventListener_handleServerMessage (st : State) : State :=
  if bool_decide (HandleServerMessage ∈ listeners st) then st
  else set_listeners (listeners st ++ [HandleServerMessage]) st.

(** [onCleanup]: the broadcast handler is removed. *)
Definition onCleanup (st : State) : State :=
  set_listeners (filter (λ l, l ≠ HandleServerMessage) (listeners st)) st.

(** The broadcast handler over a sequence of frames. *)
Definition handleServerMessages (raws : list string) (st : State) : State :=
  foldl (λ s raw, handleServerMessage raw s) st raws.

(** [n] slashes. *)
Fixpoint slashes (n : nat) : string :=
  match n with
  | O => EmptyString
  | S k => String "/"%char (slashes k)
  end.

(** ** Vocabulary of the statements *)

Definition agent0 : AgentInfo := {| name := "chat"; url := "/api/chat" |}.

(** The text [raw] is a chat-response frame [data] with identifier
    [id]. *)
Definition is_chat_response (raw : string) (data : json) (id : string)
  : Prop :=
  JSON_parse raw = Some data
  ∧ field_is "type" data CF_AGENT_USE_CHAT_RESPONSE = true
  ∧ get "id" data = Some (JStr id).

(** The body of the frame [data] is the text of the JSON value [chunk]. *)
Definition has_chunk (data : json) (chunk : json) : Prop :=
  ∃ body, get "body" data = Some (JStr body) ∧ JSON_parse body = Some chunk.

(** What a reader of the response body can tell about an exchange. *)
Definition stream_view (e : Exchange)
  : string * Ctrl * list string * list string * Reader :=
  (x_id e, x_controller e, x_delivered e, x_unread e, x_reader e).

(** The local state of the client and its consumer streams: everything but
    the frames sent to the far end, the caller's abort signals and the
    flags of the internal abort controllers. *)
Definition local_view (st : State) :=
  (messages st, status st, error st, localRequestIds st, remoteStreams st,
   listeners st, stream_view <$> exchanges st, uncaught st).

(** [advances st st']: every exchange of [st] is still there in [st'] under
    the same identifier, and one whose stream has left the readable state
    has kept its stream, its reader and its listener registration. *)
Definition advances (st st' : State) : Prop :=
  ∀ k e, exchanges st !! k = Some e →
    ∃ e', exchanges st' !! k = Some e'
      ∧ x_id e' = x_id e
      ∧ (x_controller e ≠ Readable →
         x_controller e' = x_controller e
         ∧ x_delivered e' = x_delivered e
         ∧ x_unread e' = x_unread e
         ∧ x_reader e' = x_reader e
         ∧ (OnMessage k ∈ listeners st → OnMessage k ∈ listeners st')).

(** The body of the frame [data] is absent, [null] or a string, as the
    frame type has it. *)
Definition body_is_text (data : json) : Prop :=
  match get "body" data with
  | None | Some JNull | Some (JStr _) => True
  | Some _ => False
  end.

(** The exchange a caller gets from [aiFetch] when it passes a signal that
    has not fired. *)
Definition fetch_with_signal (id : string) (st : State) : State :=
  fst (aiFetch id (url (agent st)) "POST"
         {| rb_id := agent_name st; rb_messages := messages st;
            rb_trigger := "submit-message" |} (Some false) st).

(** The identifiers of the exchanges, by index. *)
Definition ids (st : State) : list string := x_id <$> exchanges st.

(** Exchange [n] is in flight in [st]: its stream is readable and is being
    read, its identifier is locally owned, and it is the only one of the
    listening exchanges [ks] with that identifier. *)
Definition in_flight (n : nat) (e : Exchange) (ks : list nat) (st : State)
  : Prop :=
  listeners st = HandleServerMessage :: (OnMessage <$> ks)
  ∧ NoDup ks ∧ n ∈ ks
  ∧ (∀ m, m ∈ ks → m < length (exchanges st))
  ∧ exchanges st !! n = Some e
  ∧ x_controller e = Readable
  ∧ (∃ l, x_reader e = Reading l)
  ∧ x_unread e = []
  ∧ x_id e ∈ localRequestIds st
  ∧ (∀ m, m ∈ ks → m ≠ n → ids st !! m ≠ Some (x_id e)).

(** Exchange [e] once an error frame with message [msg] has ended it while
    its reader was in the loop. *)
Definition errored (msg : string) (e : Exchange) : Exchange :=
  with_aborted true
    (with_reader Failed
       (with_unread [] (with_controller (Errored msg) e))).

(** The frame [data] carries no text: its body is absent, [null] or
    blank. *)
Definition no_body (data : json) : Prop :=
  match get "body" data with
  | None | Some JNull => True
  | Some (JStr body) => blank body = true
  | Some _ => False
  end.

(** [st'] differs from [st] at most in the number of exceptions that left
    a listener. *)
Definition same_but_uncaught (st st' : State) : Prop :=
  agent st' = agent st ∧ messages st' = messages st
  ∧ status st' = status st ∧ error st' = error st
  ∧ localRequestIds st' = localRequestIds st
  ∧ remoteStreams st' = remoteStreams st
  ∧ listeners st' = listeners st ∧ sent st' = sent st
  ∧ exchanges st' = exchanges st.

(** The frame [data] does not carry a start event with a message
    identifier: its body is absent, [null] or a string, as the frame type
    has it, and the event it parses to, if any, does not have the type
    ["start"] together with a truthy [messageId], of whatever type. *)
Definition not_start (data : json) : Prop :=
  body_is_text data
  ∧ ∀ chunk, has_chunk data chunk →
      field_is "type" chunk "start" && truthy_opt (get "messageId" chunk)
      = false.

(** Every exchange with identifier [id] has ended. *)
Definition all_ended (id : string) (st : State) : Prop :=
  ∀ m e, exchanges st !! m = Some e → x_id e = id →
         x_controller e ≠ Readable ∧ x_aborted e = true.



(** The text [raw] is a chat-response frame with identifier [id] whose
    body is a text-delta event with fragment [f]; a frame with an empty
    fragment does not carry the [done] flag. *)
Definition is_delta_frame (id : string) (raw f : string) : Prop :=
  ∃ data chunk,
    is_chat_response raw data id ∧ has_chunk data chunk
    ∧ is_text_delta chunk f
    ∧ (f = "" → truthy_opt (get "done" data) = false).

(** The text [raw] is a chat-response frame with identifier [id] that
    carries the body [b] and is flagged neither as an error nor as the last
    one. *)
Definition is_body_frame (id raw b : string) : Prop :=
  ∃ data,
    is_chat_response raw data id
    ∧ truthy_opt (get "error" data) = false
    ∧ truthy_opt (get "done" data) = false
    ∧ get "body" data = Some (JStr b) ∧ blank b = false.

(** Exchange [e] once the chunks [cs] have been enqueued and read, which
    leaves the loop of its reader in [l]. *)
Definition fed (cs : list string) (l : Loop) (e : Exchange) : Exchange :=
  with_reader (Reading l) (with_delivered (x_delivered e ++ cs) e).

(** Exchange [e] once a done frame has ended it while its reader was in the
    loop. *)
Definition finished (e : Exchange) : Exchange :=
  with_aborted true (with_reader Finished (with_controller Closed e)).

(** What holds of every state reached through the operations the client
    exposes: the broadcast handler is the first listener and the others are
    those of distinct existing exchanges; no exchange has a caller's
    signal, since [sendMessage] passes none; an exchange whose reader is in
    its loop has a readable stream, no chunk waiting and its listener
    registered; no cancel frame has been sent. *)
Definition well_formed (st : State) : Prop :=
  (∃ ks, listeners st = HandleServerMessage :: (OnMessage <$> ks)
         ∧ NoDup ks ∧ ∀ m, m ∈ ks → m < length (exchanges st))
  ∧ (∀ k e, exchanges st !! k = Some e → x_signal e = None)
  ∧ (∀ k e l, exchanges st !! k = Some e → x_reader e = Reading l →
       x_controller e = Readable ∧ x_unread e = []
       ∧ OnMessage k ∈ listeners st)
  ∧ (∀ id, ChatRequestCancel id ∉ sent st).

(** From [st] to [st'] nothing has happened to the exchanges other than
    [n]: each is as it was, and its listener is still registered if it
    was. *)
Definition others_kept (n : nat) (st st' : State) : Prop :=
  ∀ k, k ≠ n →
    exchanges st' !! k = exchanges st !! k
    ∧ (OnMessage k ∈ listeners st → OnMessage k ∈ listeners st').


(** * Properties *)

(** Closed facts about concrete frames and states are settled by
    evaluation. *)
Ltac split_ands :=
  repeat first
    [ match goal with |- _ ∧ _ => split end
    | progress unfold is_chat_response, in_flight, is_start, is_text_delta ].
Ltac by_computation := split_ands; vm_compute; reflexivity.

(** ** Lines and chunks *)

Lemma append_cons (x : ascii) (a b : string) :
  String x a +:+ b = String x (a +:+ b).
Proof. reflexivity. Qed.

Lemma append_nil_l (a : string) : "" +:+ a = a.
Proof. reflexivity. Qed.

Lemma append_assoc (a b c : string) : (a +:+ b) +:+ c = a +:+ (b +:+ c).
Proof.
  induction a as [|x a IH]; [done |]. by rewrite !append_cons, IH.
Qed.

Lemma append_nil_r (a : string) : a +:+ "" = a.
Proof. induction a as [|x a IH]; [done |]. by rewrite append_cons, IH. Qed.

Lemma concat_cons (x : string) (l : list string) :
  Text.concat (x :: l) = x +:+ Text.concat l.
Proof. done. Qed.

Lemma concat_app (l1 l2 : list string) :
  Text.concat (l1 ++ l2) = Text.concat l1 +:+ Text.concat l2.
Proof.
  induction l1 as [|x l1 IH]; [done |].
  rewrite <- app_comm_cons, !concat_cons, IH. by rewrite append_assoc.
Qed.

Lemma split_lines_nonempty (s : string) : split_lines s ≠ [].
Proof.
  induction s as [|c r IH]; simpl; [done |].
  destruct (Ascii.eqb c LF); [done |].
  by destruct (split_lines r).
Qed.

(** Splitting a text that arrives in two pieces: the complete lines of the
    first piece stay, and its unfinished last line is continued by the
    second piece. *)
Lemma split_lines_app (a b : string) :
  split_lines (a +:+ b)
  = pop_init (split_lines a) ++ split_lines (pop_last (split_lines a) +:+ b).
Proof.
  unfold pop_init, pop_last.
  induction a as [|c r IH]; [done |].
  rewrite append_cons. simpl.
  destruct (Ascii.eqb c LF) eqn:Hc.
  - rewrite IH. pose proof (split_lines_nonempty r) as Hne.
    destruct (split_lines r) as [|l ls]; [done |]. done.
  - rewrite IH. pose proof (split_lines_nonempty r) as Hne.
    destruct (split_lines r) as [|l [|l2 ls]]; [done | |].
    + simpl. rewrite ?append_cons. simpl. rewrite Hc. done.
    + simpl. done.
Qed.

(** The unfinished last line holds no line feed. *)
Lemma pop_last_one_line (s : string) :
  split_lines (pop_last (split_lines s)) = [pop_last (split_lines s)].
Proof.
  unfold pop_last.
  induction s as [|c r IH]; simpl; [done |].
  pose proof (split_lines_nonempty r) as Hne.
  destruct (Ascii.eqb c LF) eqn:Hc.
  - destruct (split_lines r) as [|l ls]; [done |]. exact IH.
  - destruct (split_lines r) as [|l [|l2 ls]]; [done | |].
    + simpl in *. rewrite Hc, IH. done.
    + exact IH.
Qed.

(** The values yielded on a list of chunks are those of the complete lines
    of the whole text, wherever the chunk boundaries fall. *)
Lemma parseSSEStream_concat (chunks : list string) (buf : string) :
  split_lines buf = [buf] →
  parseSSEStream buf chunks
  = omap line_event
      (pop_init (split_lines (buf +:+ Text.concat chunks))).
Proof.
  revert buf. induction chunks as [|c r IH]; intros buf Hbuf.
  - simpl. unfold Text.concat. simpl. rewrite append_nil_r, Hbuf. done.
  - rewrite concat_cons, <- append_assoc, split_lines_app.
    cbn [parseSSEStream]. unfold parseSSEStream_read.
    rewrite (IH _ (pop_last_one_line _)).
    unfold pop_init at 3.
    rewrite removelast_app by apply split_lines_nonempty.
    by rewrite omap_app.
Qed.

Lemma split_lines_line (s rest : string) :
  split_lines s = [s] →
  split_lines (s +:+ nl +:+ rest) = s :: split_lines rest.
Proof.
  induction s as [|c r IH]; intros Hs; [done |].
  rewrite append_cons. simpl in *.
  destruct (Ascii.eqb c LF) eqn:Hc.
  - pose proof (split_lines_nonempty r). by destruct (split_lines r).
  - destruct (split_lines r) as [|l ls] eqn:Hr;
      [by destruct (split_lines_nonempty r)|].
    injection Hs as -> ->. by rewrite IH.
Qed.

Lemma data_line_one_line (b : string) :
  split_lines b = [b] → split_lines ("data: " +:+ b) = ["data: " +:+ b].
Proof.
  intros Hb. simpl. vm_compute (Ascii.eqb _ LF).
  by rewrite append_nil_l, Hb.
Qed.

Lemma split_lines_frame (b rest : string) :
  split_lines b = [b] →
  split_lines (sse_frame b +:+ rest)
  = ("data: " +:+ b) :: "" :: split_lines rest.
Proof.
  intros Hb.
  assert (sse_frame b +:+ rest
          = ("data: " +:+ b) +:+ nl +:+ ("" +:+ nl +:+ rest)) as ->.
  { unfold sse_frame. rewrite !append_assoc. reflexivity. }
  rewrite split_lines_line by by apply data_line_one_line.
  by rewrite split_lines_line.
Qed.

(** The lines of a response body made of whole frames: for each frame its
    [data:] line and an empty line, then an empty unfinished line. *)
Lemma split_lines_frames (bodies : list string) :
  Forall (λ b, split_lines b = [b]) bodies →
  split_lines (Text.concat (map sse_frame bodies))
  = flat_map (λ b, ["data: " +:+ b; ""]) bodies ++ [""].
Proof.
  induction 1 as [|b bs Hb _ IH]; [done |].
  cbn [map flat_map]. rewrite concat_cons, split_lines_frame, IH by done.
  done.
Qed.

Lemma omap_frame_lines (b : string) (ev : json) :
  blank b = false → JSON_parse b = Some ev →
  omap line_event ["data: " +:+ b; ""] = [ev].
Proof.
  intros Hk Hp. destruct b as [|c r]; [done |].
  cbn -[blank JSON_parse line_event].
  change (line_event ("data: " +:+ String c r))
    with (if blank (String c r) then None else JSON_parse (String c r)).
  by rewrite Hk, Hp.
Qed.


(** ** The loop of [sendMessage] *)





Lemma with_buffer_with_buffer (a b : string) (l : Loop) :
  with_buffer a (with_buffer b l) = with_buffer a l.
Proof. done. Qed.







Lemma text_delta_not_start (ev : json) (f : string) :
  is_text_delta ev f → field_is "type" ev "start" = false.
Proof.
  intros [Ht _]. unfold field_is in *.
  destruct (get "type" ev) as [[]|]; try done.
  apply String.eqb_eq in Ht as ->. done.
Qed.

Lemma truthy_string_get (k : string) (o : json) (s : string) :
  get k o = Some (JStr s) →
  truthy_string k o = if String.eqb s "" then None else Some s.
Proof. intros H. unfold truthy_string, get_string. by rewrite H. Qed.


Lemma loop_body_start (ev : json) (mid : string) (l : Loop)
    (prev : list json) :
  is_start ev mid → mid ≠ "" →
  loop_body ev l prev
  = Some ({| assistantMessageId := Some mid;
             loop_textContent := loop_textContent l;
             buffer := buffer l |}, prev ++ [assistantMessage mid]).
Proof.
  intros [Ht Hg] Hne. apply String.eqb_neq in Hne.
  unfold loop_body. rewrite Ht, (truthy_string_get _ _ _ Hg), Hne.
  by destruct ev.
Qed.

Lemma loop_body_delta (ev : json) (f : string) (l : Loop)
    (prev : list json) :
  is_text_delta ev f →
  loop_body ev l prev
  = if String.eqb f "" then Some (l, prev)
    else
      let text := loop_textContent l +:+ f in
      let l' := {| assistantMessageId := assistantMessageId l;
                   loop_textContent := text; buffer := buffer l |} in
      match assistantMessageId l with
      | Some mid =>
          match applyText mid text prev with
          | Some upd => Some (l', upd)
          | None => None
          end
      | None => Some (l', prev)
      end.
Proof.
  intros Hd. unfold loop_body.
  rewrite (text_delta_not_start _ _ Hd).
  destruct Hd as [Ht Hg]. rewrite Ht, (truthy_string_get _ _ _ Hg).
  assert (ev ≠ JNull) as Hnn by (by intros ->).
  destruct (String.eqb f ""); by destruct ev.
Qed.


(** ** C1: streamed text *)









(** The same body cut at every byte, and in one piece. *)
Example streamed_text_two_cuts :
  let body :=
    wire "data: {'type':'start','messageId':'a1'}||data: {'type':'text-delta','delta':'Hel'}||data: {'type':'text-delta','delta':'lo'}||" in
  let bytes := (λ c, String c "") <$> String.list_ascii_of_string body in
  snd (loop_reads bytes loop0 []) = [streamed "a1" "Hello"]
  ∧ snd (loop_reads [body] loop0 []) = [streamed "a1" "Hello"].
Proof. vm_compute. split; reflexivity. Qed.

(** ** Frames *)

Lemma field_is_other (k : string) (o : json) (s s' : string) :
  field_is k o s = true → s ≠ s' → field_is k o s' = false.
Proof.
  unfold field_is. destruct (get k o) as [[]|]; try done.
  intros ->%String.eqb_eq Hne. by apply String.eqb_neq.
Qed.

Lemma field_is_not_null (k : string) (o : json) (s : string) :
  field_is k o s = true → o ≠ JNull.
Proof. by intros H ->. Qed.

(** What the broadcast handler does with a chat-response frame. *)
Lemma handleServerMessage_response (raw : string) (data : json)
    (id : string) (st : State) :
  is_chat_response raw data id →
  handleServerMessage raw st
  = if bool_decide (id ∈ localRequestIds st) then st
    else remote_chunk id data st.
Proof.
  intros (Hp & Ht & Hid). unfold handleServerMessage. rewrite Hp.
  rewrite (field_is_other _ _ _ CF_AGENT_CHAT_CLEAR Ht) by done.
  rewrite (field_is_other _ _ _ CF_AGENT_CHAT_MESSAGES Ht) by done.
  rewrite Ht. unfold get_string. rewrite Hid.
  by destruct data.
Qed.

(** A start event reaching the broadcast handler. *)
Lemma remote_chunk_start (id mid : string) (data chunk : json) (st : State) :
  has_chunk data chunk → is_start chunk mid → mid ≠ "" →
  remote_chunk id data st
  = setMessagesStore (messages st ++ [assistantMessage mid])
      (set_remoteStreams
         (<[id := {| messageId := mid; textContent := "" |}]>
            (remoteStreams st)) st).
Proof.
  intros (body & Hb & Hp) [Ht Hg] Hne. apply String.eqb_neq in Hne.
  unfold remote_chunk. rewrite Hb, Hp, Ht, (truthy_string_get _ _ _ Hg), Hne.
  by destruct chunk.
Qed.

(** ** C3: the start event *)

(** C3, as stated, fails: a start event for a message identifier that is
    already in the list appends a second entry with that identifier, both
    in the broadcast handler and in the loop of [sendMessage]. *)
Lemma start_duplicates_counterexample :
  let st := setMessagesStore [assistantMessage "a1"] (initial agent0) in
  let raw :=
    wire "{'type':'chat-response','id':'r1','body':'{\'type\':\'start\',\'messageId\':\'a1\'}'}" in
  findIndex "a1" (messages st) = Found 0
  ∧ messages (handleServerMessage raw st)
    = [assistantMessage "a1"; assistantMessage "a1"]
  ∧ messages (handleServerMessage raw st) ≠ messages st
  ∧ loop_body (JObj [("type", JStr "start"); ("messageId", JStr "a1")])
      loop0 (messages st)
    = Some ({| assistantMessageId := Some "a1"; loop_textContent := "";
               buffer := "" |},
            [assistantMessage "a1"; assistantMessage "a1"]).
Proof. vm_compute. repeat split; done. Qed.

(** C3, amended. A start event carrying a non-empty message identifier
    always appends a new empty assistant message with that identifier at
    the end of the list, whatever the list holds: in the broadcast handler,
    for a frame whose identifier is not locally owned, and in the loop of
    [sendMessage]. *)
Theorem start_always_appends
    (raw : string) (data chunk : json) (id mid : string) (st : State)
    (l : Loop) (prev : list json) :
  is_chat_response raw data id → id ∉ localRequestIds st →
  has_chunk data chunk → is_start chunk mid → mid ≠ "" →
  messages (handleServerMessage raw st)
  = messages st ++ [assistantMessage mid]
  ∧ ∃ l', loop_body chunk l prev = Some (l', prev ++ [assistantMessage mid]).
Proof.
  intros Hr Hid Hc Hs Hne. split.
  - rewrite (handleServerMessage_response _ _ _ _ Hr).
    rewrite bool_decide_eq_false_2 by done.
    by rewrite (remote_chunk_start _ _ _ _ _ Hc Hs Hne).
  - eexists. by apply loop_body_start.
Qed.

Lemma start_always_appends_witness :
  let st := setMessagesStore [assistantMessage "a1"] (initial agent0) in
  let raw :=
    wire "{'type':'chat-response','id':'r1','body':'{\'type\':\'start\',\'messageId\':\'a1\'}'}" in
  messages (handleServerMessage raw st)
  = messages st ++ [assistantMessage "a1"]
  ∧ ∃ l', loop_body (JObj [("type", JStr "start"); ("messageId", JStr "a1")])
            loop0 [] = Some (l', [] ++ [assistantMessage "a1"]).
Proof.
  intros st raw.
  apply (start_always_appends raw
           (JObj [("type", JStr "chat-response"); ("id", JStr "r1");
                  ("body", JStr (wire "{'type':'start','messageId':'a1'}"))])
           (JObj [("type", JStr "start"); ("messageId", JStr "a1")])
           "r1" "a1" st loop0 []).
  - by_computation.
  - vm_compute. set_solver.
  - eexists. split; [vm_compute; reflexivity |]. vm_compute. reflexivity.
  - split; reflexivity.
  - discriminate.
Defined.

(** ** C7: frames that are not JSON *)

Lemma invoke_malformed (l : Listener) (raw : string) (st : State) :
  JSON_parse raw = None → invoke l raw st = st.
Proof.
  intros H. destruct l as [|n]; cbn [invoke].
  - unfold handleServerMessage. by rewrite H.
  - unfold onMessage. destruct (exchanges st !! n); [by rewrite H | done].
Qed.

Lemma foldl_dispatch_fixed (raw : string) (ls : list Listener) (st : State) :
  (∀ l, invoke l raw st = st) → foldl (dispatch raw) st ls = st.
Proof.
  intros H. induction ls as [|l ls IH]; [done |].
  cbn [foldl]. unfold dispatch at 2. rewrite H.
  by destruct (bool_decide _).
Qed.

(** C7. A frame whose payload is not valid JSON changes nothing at all: the
    message list, every exchange, the status and the error are as before,
    no listener throws, and whatever frame comes next is handled as if the
    malformed one had never arrived. *)
Theorem malformed_frame_dropped (raw : string) (st : State) :
  JSON_parse raw = None →
  deliver raw st = st
  ∧ ∀ next, deliver next (deliver raw st) = deliver next st.
Proof.
  intros H.
  assert (deliver raw st = st) as E.
  { apply foldl_dispatch_fixed. intros l. by apply invoke_malformed. }
  split; [done | intros next; by rewrite E].
Qed.

Lemma malformed_frame_dropped_witness :
  let st :=
    run (initial agent0)
      [SendMessage "u1" "x1" ["hi"];
       Deliver (wire "{'type':'chat-response','id':'x1','body':'{\'type\':\'start\',\'messageId\':\'a1\'}'}")] in
  deliver "{not json" st = st
  ∧ ∀ next, deliver next (deliver "{not json" st) = deliver next st.
Proof.
  intros st. apply (malformed_frame_dropped "{not json" st).
  vm_compute. reflexivity.
Defined.

(** ** The broadcast handler and locally owned identifiers *)

Lemma handleServerMessage_local (raw : string) (data : json) (id : string)
    (st : State) :
  is_chat_response raw data id → id ∈ localRequestIds st →
  handleServerMessage raw st = st.
Proof.
  intros Hr Hid. rewrite (handleServerMessage_response _ _ _ _ Hr).
  by rewrite bool_decide_eq_true_2.
Qed.

Lemma deliver_local (raw : string) (data : json) (id : string) (st : State)
    (ls : list Listener) :
  is_chat_response raw data id → id ∈ localRequestIds st →
  listeners st = HandleServerMessage :: ls →
  deliver raw st = foldl (dispatch raw) st ls.
Proof.
  intros Hr Hid Hl. unfold deliver. rewrite Hl. cbn [foldl].
  unfold dispatch at 2. rewrite Hl. cbn [invoke].
  rewrite (handleServerMessage_local _ _ _ _ Hr Hid).
  by destruct (bool_decide _).
Qed.

(** ** C10: [setMessages] with an updater *)

(** C10. With an updater, [setMessages] replaces the local list by the
    updater's result and sends a chat-messages frame whose [messages] is
    the empty array; with an array it sends that array. *)
Theorem setMessages_updater_sends_empty
    (fn : list json → list json) (ms : list json) (st : State) :
  messages (setMessages (inr fn) st) = fn (messages st)
  ∧ sent (setMessages (inr fn) st) = sent st ++ [ChatMessages []]
  ∧ messages (setMessages (inl ms) st) = ms
  ∧ sent (setMessages (inl ms) st) = sent st ++ [ChatMessages ms].
Proof. done. Qed.

(** The two copies differ as soon as the updater returns a non-empty
    list. *)
Example setMessages_updater_diverges :
  let st := setMessages (inr (λ prev, prev ++ [userMessage "u1" ["hi"]]))
              (initial agent0) in
  messages st = [userMessage "u1" ["hi"]]
  ∧ sent st = [ChatMessages []].
Proof. done. Qed.

(** ** Exchanges that have left the readable state *)

Lemma advances_refl (st : State) : advances st st.
Proof. intros k e H. exists e. naive_solver. Qed.

Lemma advances_trans (s1 s2 s3 : State) :
  advances s1 s2 → advances s2 s3 → advances s1 s3.
Proof.
  intros H12 H23 k e H.
  destruct (H12 k e H) as (e2 & H2 & Hid2 & Hc2).
  destruct (H23 k e2 H2) as (e3 & H3 & Hid3 & Hc3).
  exists e3. split; [done |]. split; [congruence |].
  intros Hne. destruct (Hc2 Hne) as (Ha & Hb & Hc & Hd & He).
  destruct Hc3 as (Ha' & Hb' & Hc' & Hd' & He'); [congruence |].
  repeat split; try congruence. auto.
Qed.

(** A step that leaves the exchanges and the listeners as they are. *)
Lemma advances_same (st st' : State) :
  exchanges st' = exchanges st → listeners st' = listeners st →
  advances st st'.
Proof. intros He Hl k e H. exists e. rewrite He, Hl. naive_solver. Qed.

(** Replacing exchange [n] by one with the same identifier that differs
    from it, once it has left the readable state, in nothing a reader can
    tell, while the listeners of the other exchanges stay. *)
Lemma advances_update (n : nat) (e0 e1 : Exchange) (st st' : State) :
  exchanges st !! n = Some e0 →
  exchanges st' = <[n := e1]> (exchanges st) →
  x_id e1 = x_id e0 →
  (x_controller e0 ≠ Readable →
   stream_view e1 = stream_view e0
   ∧ (OnMessage n ∈ listeners st → OnMessage n ∈ listeners st')) →
  (∀ k, k ≠ n → OnMessage k ∈ listeners st → OnMessage k ∈ listeners st') →
  advances st st'.
Proof.
  intros H0 Hex Hid Hv Hl k e H. rewrite Hex.
  destruct (decide (k = n)) as [-> | Hne].
  - exists e1. rewrite list_lookup_insert_eq by by eapply lookup_lt_Some.
    assert (e = e0) as -> by congruence.
    split; [done |]. split; [done |]. intros Hc.
    destruct (Hv Hc) as [Hsv Hin]. unfold stream_view in Hsv.
    injection Hsv as _ -> -> -> ->. done.
  - exists e. rewrite list_lookup_insert_ne by done.
    split; [done |]. split; [done |]. intros _.
    repeat split; try done. by apply Hl.
Qed.

Lemma advances_set_exchange (n : nat) (e0 e1 : Exchange) (st : State) :
  exchanges st !! n = Some e0 →
  x_id e1 = x_id e0 →
  (x_controller e0 ≠ Readable → stream_view e1 = stream_view e0) →
  advances st (set_exchange n e1 st).
Proof.
  intros H0 Hid Hv.
  apply (advances_update n e0 e1); try done.
  intros Hc. split; [by apply Hv | done].
Qed.

Lemma elem_of_listeners_flush (k n : nat) (st : State) :
  OnMessage k ∈ listeners (flush n st)
  ↔ OnMessage k ∈ listeners st ∧ k ≠ n.
Proof.
  cbn. rewrite list_elem_of_filter. split.
  - intros [Hne Hin]. split; [done |]. by intros ->.
  - intros [Hin Hne]. split; [| done]. by intros [= ->].
Qed.

Lemma advances_enqueue (n : nat) (chunk : string) (st : State) :
  advances st (fst (controller_enqueue n chunk st)).
Proof.
  unfold controller_enqueue.
  destruct (exchanges st !! n) as [e0|] eqn:H0; [| apply advances_refl].
  destruct (x_controller e0) eqn:Hc; try apply advances_refl.
  destruct (x_reader e0) as [l| |];
    [destruct (loop_read chunk l (messages st)) as [[l'|] p] | ..];
    cbn [fst];
    (eapply (advances_update n e0);
     [exact H0 | reflexivity | done | by rewrite Hc | done]).
Qed.

Lemma advances_close (n : nat) (st : State) :
  advances st (controller_close n st).
Proof.
  unfold controller_close.
  destruct (exchanges st !! n) as [e0|] eqn:H0; [| apply advances_refl].
  destruct (x_controller e0) eqn:Hc; try apply advances_refl.
  destruct (x_reader e0) as [l| |]; [| destruct (x_unread e0) ..];
    (eapply (advances_update n e0);
     [exact H0 | reflexivity | done | by rewrite Hc |]);
    intros k Hk Hin; try done;
    change (OnMessage k ∈ listeners (flush n st));
    by apply elem_of_listeners_flush.
Qed.

Lemma advances_error (n : nat) (message : string) (st : State) :
  advances st (controller_error n message st).
Proof.
  unfold controller_error.
  destruct (exchanges st !! n) as [e0|] eqn:H0; [| apply advances_refl].
  destruct (x_controller e0) eqn:Hc; try apply advances_refl.
  destruct (x_reader e0) as [l| |];
    (eapply (advances_update n e0);
     [exact H0 | reflexivity | done | by rewrite Hc | done]).
Qed.

Lemma advances_abort (n : nat) (st : State) :
  advances st (abortController_abort n st).
Proof.
  unfold abortController_abort.
  destruct (exchanges st !! n) as [e0|] eqn:H0; [| apply advances_refl].
  by eapply advances_set_exchange.
Qed.

Lemma advances_delete (id : string) (st : State) :
  advances st (localRequestIds_delete id st).
Proof. by apply advances_same. Qed.

Lemma advances_throw (st : State) : advances st (throw st).
Proof. by apply advances_same. Qed.

Lemma advances_send (f : Outgoing) (st : State) : advances st (send f st).
Proof. by apply advances_same. Qed.

Lemma advances_enqueue_body (n : nat) (data : json) (st : State) :
  advances st (fst (enqueue_body n data st)).
Proof.
  unfold enqueue_body.
  destruct (get "body" data) as [[| | | body | |]|];
    try apply advances_refl.
  destruct (blank body); [apply advances_refl | apply advances_enqueue].
Qed.

Lemma advances_onMessage_frame (n : nat) (id : string) (data : json)
    (st : State) :
  advances st (onMessage_frame n id data st).
Proof.
  unfold onMessage_frame.
  destruct (_ && _); [| apply advances_refl].
  destruct (truthy_opt (get "error" data)).
  { eapply advances_trans; [apply advances_error |].
    eapply advances_trans; [apply advances_abort | apply advances_delete]. }
  pose proof (advances_enqueue_body n data st) as H1.
  destruct (enqueue_body n data st) as [st1 [|]]; cbn [fst] in H1.
  - eapply advances_trans; [exact H1 | apply advances_throw].
  - destruct (truthy_opt (get "done" data)); [| done].
    eapply advances_trans; [exact H1 |].
    eapply advances_trans; [apply advances_close |].
    eapply advances_trans; [apply advances_abort | apply advances_delete].
Qed.

Lemma advances_onMessage (n : nat) (raw : string) (st : State) :
  advances st (onMessage n raw st).
Proof.
  unfold onMessage.
  destruct (exchanges st !! n) as [e0|]; [| apply advances_refl].
  destruct (JSON_parse raw) as [data|]; [| apply advances_refl].
  destruct data; try apply advances_onMessage_frame. apply advances_throw.
Qed.

Lemma advances_handleServerMessage (raw : string) (st : State) :
  advances st (handleServerMessage raw st).
Proof.
  apply advances_same; unfold handleServerMessage, remote_chunk;
    repeat (case_match; simplify_eq; try done).
Qed.

Lemma advances_invoke (l : Listener) (raw : string) (st : State) :
  advances st (invoke l raw st).
Proof.
  destruct l; [apply advances_handleServerMessage | apply advances_onMessage].
Qed.

Lemma advances_foldl (raw : string) (ls : list Listener) (st : State) :
  advances st (foldl (dispatch raw) st ls).
Proof.
  revert st. induction ls as [|l ls IH]; intros st; [apply advances_refl |].
  cbn [foldl]. eapply advances_trans; [| apply IH].
  unfold dispatch. destruct (bool_decide _);
    [apply advances_invoke | apply advances_refl].
Qed.

Lemma advances_deliver (raw : string) (st : State) :
  advances st (deliver raw st).
Proof. apply advances_foldl. Qed.

Lemma advances_abort_listener (n : nat) (st : State) :
  advances st (abort_listener n st).
Proof.
  unfold abort_listener.
  destruct (exchanges st !! n) as [e0|]; [| apply advances_refl].
  eapply advances_trans; [apply advances_send |].
  eapply advances_trans; [apply advances_abort |].
  eapply advances_trans; [apply advances_close | apply advances_delete].
Qed.

Lemma advances_cancel (n : nat) (st : State) : advances st (cancel n st).
Proof.
  unfold cancel.
  destruct (exchanges st !! n) as [e0|] eqn:H0; [| apply advances_refl].
  destruct (x_signal e0) as [[|]|]; try apply advances_refl.
  eapply advances_trans; [| apply advances_abort_listener].
  by eapply advances_set_exchange.
Qed.

Lemma advances_sendMessage (mid id : string) (parts : list string)
    (st : State) :
  advances st (sendMessage mid id parts st).
Proof.
  intros k e H. exists e. cbn.
  rewrite lookup_app_l by by eapply lookup_lt_Some.
  split; [done |]. split; [done |]. intros _. repeat split; try done.
  intros Hin. apply elem_of_app. by left.
Qed.

Lemma advances_step (st : State) (a : Action) : advances st (step st a).
Proof.
  destruct a as [raw | mid id parts | n | m |]; cbn [step].
  - apply advances_deliver.
  - apply advances_sendMessage.
  - apply advances_cancel.
  - apply advances_same; by destruct m.
  - by apply advances_same.
Qed.

Lemma advances_run (acts : list Action) (st : State) :
  advances st (run st acts).
Proof.
  revert st. induction acts as [|a r IH]; intros st; [apply advances_refl |].
  cbn [run foldl]. eapply advances_trans; [apply advances_step | apply IH].
Qed.


(** ** Exchange [n] after a stream operation *)

Lemma lookup_set_exchange (n : nat) (e e0 : Exchange) (st : State) :
  exchanges st !! n = Some e0 →
  exchanges (set_exchange n e st) !! n = Some e.
Proof.
  intros H. cbn. apply list_lookup_insert_eq. by eapply lookup_lt_Some.
Qed.

Lemma close_at (n : nat) (e : Exchange) (st : State) :
  exchanges st !! n = Some e →
  ∃ e', exchanges (controller_close n st) !! n = Some e'
    ∧ x_id e' = x_id e ∧ x_signal e' = x_signal e
    ∧ x_aborted e' = x_aborted e ∧ x_delivered e' = x_delivered e
    ∧ x_controller e' ≠ Readable.
Proof.
  intros H. unfold controller_close. rewrite H.
  destruct (x_controller e) eqn:Hc; [| exists e; by rewrite Hc ..].
  destruct (x_reader e); [| destruct (x_unread e) ..];
    (eexists; split; [by eapply lookup_set_exchange | done]).
Qed.

Lemma close_settled (n : nat) (e : Exchange) (st : State) :
  exchanges st !! n = Some e → x_controller e ≠ Readable →
  controller_close n st = st.
Proof.
  intros H Hc. unfold controller_close. rewrite H. by destruct (x_controller e).
Qed.

Lemma abort_at (n : nat) (e : Exchange) (st : State) :
  exchanges st !! n = Some e →
  exchanges (abortController_abort n st) !! n = Some (with_aborted true e).
Proof.
  intros H. unfold abortController_abort. rewrite H.
  by eapply lookup_set_exchange.
Qed.

Lemma enqueue_readable (n : nat) (e : Exchange) (c : string) (st : State) :
  exchanges st !! n = Some e → x_controller e = Readable →
  snd (controller_enqueue n c st) = false.
Proof.
  intros H Hc. unfold controller_enqueue. rewrite H, Hc.
  destruct (x_reader e); [| done ..].
  by destruct (loop_read c l (messages st)) as [[|] ?].
Qed.

Lemma fmap_insert_same {A B : Type} (f : A → B) (l : list A) (n : nat)
    (e e' : A) :
  l !! n = Some e → f e' = f e → f <$> <[n := e']> l = f <$> l.
Proof.
  intros H Hf. rewrite list_fmap_insert, Hf.
  apply list_insert_id. by rewrite list_lookup_fmap, H.
Qed.


(** ** C4: cancelling again, or after the end *)

(** The abort listener on an exchange whose stream has left the readable
    state and whose identifier is released: nothing local changes. *)
Lemma abort_listener_settled (n : nat) (e : Exchange) (st : State) :
  exchanges st !! n = Some e → x_controller e ≠ Readable →
  x_id e ∉ localRequestIds st →
  local_view (abort_listener n st) = local_view st.
Proof.
  intros H Hc Hid. unfold abort_listener. rewrite H.
  rewrite (close_settled n (with_aborted true e)); [| by apply abort_at | done].
  unfold abortController_abort. cbn [send exchanges]. rewrite H.
  unfold local_view. cbn.
  rewrite (fmap_insert_same stream_view _ _ e) by done.
  repeat f_equal. set_solver.
Qed.

Lemma cancel_settled (n : nat) (e : Exchange) (st : State) :
  exchanges st !! n = Some e → x_controller e ≠ Readable →
  x_id e ∉ localRequestIds st →
  local_view (cancel n st) = local_view st.
Proof.
  intros H Hc Hid. unfold cancel. rewrite H.
  destruct (x_signal e) as [[|]|]; try done.
  rewrite (abort_listener_settled n (with_signal (Some true) e));
    [| by eapply lookup_set_exchange | done | done].
  unfold local_view. cbn.
  by rewrite (fmap_insert_same stream_view _ _ e).
Qed.

(** After the abort listener has run, the stream has left the readable
    state and the identifier is released. *)
Lemma abort_listener_at (n : nat) (e : Exchange) (st : State) :
  exchanges st !! n = Some e →
  ∃ e', exchanges (abort_listener n st) !! n = Some e'
    ∧ x_id e' = x_id e ∧ x_signal e' = x_signal e
    ∧ x_delivered e' = x_delivered e
    ∧ x_controller e' ≠ Readable
    ∧ x_id e ∉ localRequestIds (abort_listener n st).
Proof.
  intros H. unfold abort_listener. rewrite H.
  destruct (close_at n (with_aborted true e)
              (abortController_abort n (send (ChatRequestCancel (x_id e)) st)))
    as (e' & H' & Hid & Hs & _ & Hd & Hc); [by apply abort_at |].
  exists e'. cbn [localRequestIds_delete set_localRequestIds exchanges
                    localRequestIds].
  repeat split; try done. set_solver.
Qed.

Lemma onMessage_matching (n : nat) (e : Exchange) (raw : string)
    (data : json) (st : State) :
  exchanges st !! n = Some e → is_chat_response raw data (x_id e) →
  onMessage n raw st
  = if truthy_opt (get "error" data) then
      localRequestIds_delete (x_id e)
        (abortController_abort n
           (controller_error n (error_message data) st))
    else
      match enqueue_body n data st with
      | (st1, true) => throw st1
      | (st1, false) =>
          if truthy_opt (get "done" data)
          then localRequestIds_delete (x_id e)
                 (abortController_abort n (controller_close n st1))
          else st1
      end.
Proof.
  intros H (Hp & Ht & Hid). unfold onMessage. rewrite H, Hp.
  assert (onMessage_frame n (x_id e) data st
          = if truthy_opt (get "error" data) then
              localRequestIds_delete (x_id e)
                (abortController_abort n
                   (controller_error n (error_message data) st))
            else
              match enqueue_body n data st with
              | (st1, true) => throw st1
              | (st1, false) =>
                  if truthy_opt (get "done" data)
                  then localRequestIds_delete (x_id e)
                         (abortController_abort n (controller_close n st1))
                  else st1
              end) as <-.
  { unfold onMessage_frame. rewrite Ht.
    unfold field_is at 1. by rewrite Hid, String.eqb_refl. }
  by destruct data.
Qed.

(** A frame body that is text is enqueued without an exception on a
    readable stream. *)
Lemma enqueue_body_readable (n : nat) (e : Exchange) (data : json)
    (st : State) :
  exchanges st !! n = Some e → x_controller e = Readable →
  body_is_text data →
  snd (enqueue_body n data st) = false.
Proof.
  intros H Hc Hb. unfold enqueue_body, body_is_text in *.
  destruct (get "body" data) as [[| | | body | |]|]; try done.
  destruct (blank body); [done |]. by eapply enqueue_readable.
Qed.

(** After a done frame on a readable stream, likewise. *)
Lemma done_frame_at (n : nat) (e : Exchange) (raw : string) (data : json)
    (st : State) :
  exchanges st !! n = Some e → x_controller e = Readable →
  is_chat_response raw data (x_id e) →
  truthy_opt (get "error" data) = false →
  truthy_opt (get "done" data) = true →
  body_is_text data →
  ∃ e', exchanges (onMessage n raw st) !! n = Some e'
    ∧ x_id e' = x_id e ∧ x_controller e' ≠ Readable
    ∧ x_id e ∉ localRequestIds (onMessage n raw st).
Proof.
  intros H Hc Hr Herr Hdone Hbody.
  rewrite (onMessage_matching n e raw data st H Hr), Herr, Hdone.
  pose proof (enqueue_body_readable n e data st H Hc Hbody) as Hs.
  pose proof (advances_enqueue_body n data st n e H) as (e1 & H1 & Hid1 & _).
  destruct (enqueue_body n data st) as [st1 b]. cbn in Hs, H1. subst b.
  destruct (close_at n e1 st1 H1) as (e2 & H2 & Hid2 & _ & _ & _ & Hc2).
  exists (with_aborted true e2).
  cbn [localRequestIds_delete set_localRequestIds exchanges localRequestIds].
  split; [by apply abort_at |].
  split; [cbn; congruence |]. split; [done |]. set_solver.
Qed.

(** C4. Cancelling is idempotent. Aborting the signal a second time does
    nothing (the platform runs the abort listener once); running the abort
    listener itself again, or running it after the exchange has ended with
    a done frame, changes nothing in the local state or the consumer
    streams and makes no listener throw: it only sends one more cancel
    frame to the far end. *)
Theorem cancel_is_idempotent
    (n : nat) (e : Exchange) (raw : string) (data : json) (st : State) :
  exchanges st !! n = Some e → x_controller e = Readable →
  is_chat_response raw data (x_id e) →
  truthy_opt (get "error" data) = false →
  truthy_opt (get "done" data) = true →
  body_is_text data →
  cancel n (cancel n st) = cancel n st
  ∧ local_view (abort_listener n (abort_listener n st))
    = local_view (abort_listener n st)
  ∧ local_view (cancel n (onMessage n raw st))
    = local_view (onMessage n raw st)
  ∧ local_view (abort_listener n (onMessage n raw st))
    = local_view (onMessage n raw st)
  ∧ sent (abort_listener n (onMessage n raw st))
    = sent (onMessage n raw st) ++ [ChatRequestCancel (x_id e)].
Proof.
  intros H Hc Hr Herr Hdone Hbody.
  split; [| split].
  - unfold cancel at 2 3. rewrite H.
    destruct (x_signal e) as [[|]|] eqn:Hs;
      try (unfold cancel; by rewrite H, Hs).
    destruct (abort_listener_at n (with_signal (Some true) e)
                (set_exchange n (with_signal (Some true) e) st))
      as (e' & H' & _ & Hs' & _); [by eapply lookup_set_exchange |].
    unfold cancel. by rewrite H', Hs'.
  - destruct (abort_listener_at n e st H) as (e' & H' & Hid & _ & _ & Hc' & Hl).
    apply (abort_listener_settled n e'); [done | done | by rewrite Hid].
  - destruct (done_frame_at n e raw data st H Hc Hr Herr Hdone Hbody)
      as (e' & H' & Hid & Hc' & Hl).
    split; [| split].
    + apply (cancel_settled n e'); [done | done | by rewrite Hid].
    + apply (abort_listener_settled n e'); [done | done | by rewrite Hid].
    + unfold abort_listener. rewrite H', Hid.
      rewrite (close_settled n (with_aborted true e'));
        [| by apply abort_at | done].
      unfold abortController_abort. cbn [send exchanges]. rewrite H'. done.
Qed.

Lemma cancel_is_idempotent_witness :
  let st := fetch_with_signal "x1" (initial agent0) in
  let raw := wire "{'type':'chat-response','id':'x1','body':'','done':true}" in
  cancel 0 (cancel 0 st) = cancel 0 st
  ∧ local_view (abort_listener 0 (abort_listener 0 st))
    = local_view (abort_listener 0 st)
  ∧ local_view (cancel 0 (onMessage 0 raw st))
    = local_view (onMessage 0 raw st)
  ∧ local_view (abort_listener 0 (onMessage 0 raw st))
    = local_view (onMessage 0 raw st)
  ∧ sent (abort_listener 0 (onMessage 0 raw st))
    = sent (onMessage 0 raw st) ++ [ChatRequestCancel "x1"].
Proof.
  intros st raw.
  apply (cancel_is_idempotent 0
           {| x_id := "x1"; x_signal := Some false; x_controller := Readable;
              x_aborted := false; x_delivered := []; x_unread := [];
              x_reader := Reading loop0 |}
           raw
           (JObj [("type", JStr "chat-response"); ("id", JStr "x1");
                  ("body", JStr ""); ("done", JBool true)]) st).
  - reflexivity.
  - reflexivity.
  - by_computation.
  - reflexivity.
  - reflexivity.
  - exact I.
Defined.


(** ** C2: frames that arrive after a cancellation *)

Lemma localRequestIds_enqueue (n : nat) (c : string) (st : State) :
  localRequestIds (fst (controller_enqueue n c st)) = localRequestIds st.
Proof.
  unfold controller_enqueue.
  destruct (exchanges st !! n) as [e|]; [| done].
  destruct (x_controller e); try done.
  destruct (x_reader e) as [l| |]; try done.
  by destruct (loop_read c l (messages st)) as [[l'|] p].
Qed.

Lemma localRequestIds_close (n : nat) (st : State) :
  localRequestIds (controller_close n st) = localRequestIds st.
Proof.
  unfold controller_close.
  destruct (exchanges st !! n) as [e|]; [| done].
  destruct (x_controller e); try done.
  destruct (x_reader e); [done | ..]; by destruct (x_unread e).
Qed.

Lemma localRequestIds_error (n : nat) (m : string) (st : State) :
  localRequestIds (controller_error n m st) = localRequestIds st.
Proof.
  unfold controller_error.
  destruct (exchanges st !! n) as [e|]; [| done].
  destruct (x_controller e); try done. by destruct (x_reader e).
Qed.

Lemma localRequestIds_abort (n : nat) (st : State) :
  localRequestIds (abortController_abort n st) = localRequestIds st.
Proof.
  unfold abortController_abort. by destruct (exchanges st !! n).
Qed.

Lemma localRequestIds_enqueue_body (n : nat) (data : json) (st : State) :
  localRequestIds (fst (enqueue_body n data st)) = localRequestIds st.
Proof.
  unfold enqueue_body.
  destruct (get "body" data) as [[| | | body | |]|]; try done.
  destruct (blank body); [done | apply localRequestIds_enqueue].
Qed.

Lemma localRequestIds_onMessage_frame (n : nat) (id : string) (data : json)
    (st : State) :
  localRequestIds (onMessage_frame n id data st) ⊆ localRequestIds st.
Proof.
  unfold onMessage_frame.
  destruct (_ && _); [| done].
  destruct (truthy_opt (get "error" data)).
  { cbn [localRequestIds_delete set_localRequestIds localRequestIds].
    rewrite localRequestIds_abort, localRequestIds_error. set_solver. }
  pose proof (localRequestIds_enqueue_body n data st) as H1.
  destruct (enqueue_body n data st) as [st1 [|]]; cbn [fst] in H1.
  - cbn. by rewrite H1.
  - destruct (truthy_opt (get "done" data)); [| by rewrite H1].
    cbn [localRequestIds_delete set_localRequestIds localRequestIds].
    rewrite localRequestIds_abort, localRequestIds_close, H1. set_solver.
Qed.

Lemma localRequestIds_invoke (l : Listener) (raw : string) (st : State) :
  localRequestIds (invoke l raw st) ⊆ localRequestIds st.
Proof.
  destruct l as [|n]; cbn [invoke].
  - assert (localRequestIds (handleServerMessage raw st)
            = localRequestIds st) as ->; [| done].
    unfold handleServerMessage, remote_chunk.
    repeat (case_match; simplify_eq; try done).
  - unfold onMessage.
    destruct (exchanges st !! n) as [e|]; [| done].
    destruct (JSON_parse raw) as [data|]; [| done].
    destruct data; try apply localRequestIds_onMessage_frame. done.
Qed.

(** No frame ever adds an identifier to [localRequestIds]. *)
Lemma localRequestIds_foldl (raw : string) (ls : list Listener) (st : State) :
  localRequestIds (foldl (dispatch raw) st ls) ⊆ localRequestIds st.
Proof.
  revert st. induction ls as [|l ls IH]; intros st; [done |].
  cbn [foldl]. etrans; [apply IH |].
  unfold dispatch. destruct (bool_decide _);
    [apply localRequestIds_invoke | done].
Qed.

Lemma localRequestIds_deliver (raw : string) (st : State) :
  localRequestIds (deliver raw st) ⊆ localRequestIds st.
Proof. apply localRequestIds_foldl. Qed.

Lemma localRequestIds_frames (raws : list string) (st : State) :
  localRequestIds (run st (Deliver <$> raws)) ⊆ localRequestIds st.
Proof.
  revert st. induction raws as [|raw r IH]; intros st; [done |].
  cbn [fmap list_fmap run foldl step]. etrans; [apply IH |].
  apply localRequestIds_deliver.
Qed.

(** C2, as stated, fails in its last part: a late start frame brings the
    released identifier of a cancelled exchange back into the tables, as a
    remote stream, and its message into the list. *)
Lemma late_start_after_cancel_counterexample :
  let st := cancel 0 (fetch_with_signal "x1" (initial agent0)) in
  let st1 :=
    deliver (wire "{'type':'chat-response','id':'x1','body':'{\'type\':\'start\',\'messageId\':\'a1\'}'}") st in
  ("x1" ∉ localRequestIds st)
  ∧ remoteStreams st !! "x1" = None
  ∧ remoteStreams st1 !! "x1"
    = Some {| messageId := "a1"; textContent := "" |}
  ∧ messages st1 ≠ messages st.
Proof. vm_compute. repeat split; try done; set_solver. Qed.

(** C2, amended. Once the abort signal of an exchange has fired, its
    stream has left the readable state for good: whatever happens next, and
    whatever frames keep arriving with its identifier, no chunk is enqueued
    on it any more, and no frame makes its identifier locally owned again.
    The broadcast handler, however, takes a late start frame with that
    identifier for the start of a remote stream: it registers the
    identifier in [remoteStreams] and appends a message. *)
Theorem no_delivery_after_cancel (n : nat) (e : Exchange) (st : State) :
  exchanges st !! n = Some e → x_signal e = Some false →
  (x_id e ∉ localRequestIds (cancel n st))
  ∧ (∀ acts, ∃ e',
       exchanges (run (cancel n st) acts) !! n = Some e'
       ∧ x_id e' = x_id e
       ∧ x_controller e' ≠ Readable
       ∧ x_delivered e' = x_delivered e)
  ∧ (∀ raws,
       x_id e ∉ localRequestIds (run (cancel n st) (Deliver <$> raws)))
  ∧ (∀ raw data chunk mid,
       is_chat_response raw data (x_id e) → has_chunk data chunk →
       is_start chunk mid → mid ≠ "" →
       remoteStreams (handleServerMessage raw (cancel n st)) !! x_id e
       = Some {| messageId := mid; textContent := "" |}
       ∧ messages (handleServerMessage raw (cancel n st))
         = messages (cancel n st) ++ [assistantMessage mid]).
Proof.
  intros H Hs. unfold cancel. rewrite H, Hs.
  destruct (abort_listener_at n (with_signal (Some true) e)
              (set_exchange n (with_signal (Some true) e) st))
    as (e1 & H1 & Hid1 & _ & Hd1 & Hc1 & Hl1);
    [by eapply lookup_set_exchange |].
  cbn in Hid1, Hd1, Hl1.
  split; [done |]. split; [| split].
  - intros acts.
    destruct (advances_run acts _ n e1 H1) as (e' & H' & Hid' & Hk).
    destruct (Hk Hc1) as (Hc' & Hd' & _).
    exists e'. repeat split; congruence.
  - intros raws Hin. apply Hl1.
    by apply (localRequestIds_frames raws).
  - intros raw data chunk mid Hr Hch Hst Hne.
    rewrite (handleServerMessage_response _ _ _ _ Hr).
    rewrite bool_decide_eq_false_2 by done.
    rewrite (remote_chunk_start _ _ _ _ _ Hch Hst Hne). cbn.
    by rewrite lookup_insert_eq.
Qed.

Lemma no_delivery_after_cancel_witness :
  let st := fetch_with_signal "x1" (initial agent0) in
  ("x1" ∉ localRequestIds (cancel 0 st))
  ∧ (∀ acts, ∃ e',
       exchanges (run (cancel 0 st) acts) !! 0 = Some e'
       ∧ x_id e' = "x1"
       ∧ x_controller e' ≠ Readable
       ∧ x_delivered e' = [])
  ∧ (∀ raws,
       "x1" ∉ localRequestIds (run (cancel 0 st) (Deliver <$> raws)))
  ∧ (∀ raw data chunk mid,
       is_chat_response raw data "x1" → has_chunk data chunk →
       is_start chunk mid → mid ≠ "" →
       remoteStreams (handleServerMessage raw (cancel 0 st)) !! "x1"
       = Some {| messageId := mid; textContent := "" |}
       ∧ messages (handleServerMessage raw (cancel 0 st))
         = messages (cancel 0 st) ++ [assistantMessage mid]).
Proof.
  intros st.
  apply (no_delivery_after_cancel 0 (new_exchange "x1" (Some false)) st).
  - reflexivity.
  - reflexivity.
Defined.

(** A cancelled exchange and a late text-delta frame with its
    identifier: the stream stays closed and empty, the listener is gone,
    and the message list is as it was. *)
Example late_frame_after_cancel :
  let st := cancel 0 (fetch_with_signal "x1" (initial agent0)) in
  let st' :=
    deliver (wire "{'type':'chat-response','id':'x1','body':'{\'type\':\'text-delta\',\'delta\':\'late\'}'}") st in
  listeners st = [HandleServerMessage]
  ∧ (x_delivered <$> exchanges st') = [[]]
  ∧ (x_controller <$> exchanges st') = [Closed]
  ∧ messages st' = messages st
  ∧ sent st = [UseChatRequest "x1" "/api/chat" "POST"
                 {| rb_id := "chat"; rb_messages := [];
                    rb_trigger := "submit-message" |};
               ChatRequestCancel "x1"].
Proof. vm_compute. repeat split; reflexivity. Qed.


(** ** A frame and the listeners of other exchanges *)

Lemma ids_update (n : nat) (e0 e1 : Exchange) (st st' : State) :
  exchanges st !! n = Some e0 →
  exchanges st' = <[n := e1]> (exchanges st) →
  x_id e1 = x_id e0 →
  ids st' = ids st.
Proof.
  intros H Hex Hid. unfold ids. rewrite Hex. by eapply fmap_insert_same.
Qed.

Lemma ids_enqueue (n : nat) (chunk : string) (st : State) :
  ids (fst (controller_enqueue n chunk st)) = ids st.
Proof.
  unfold controller_enqueue.
  destruct (exchanges st !! n) as [e0|] eqn:H0; [| done].
  destruct (x_controller e0); try done.
  destruct (x_reader e0) as [l| |];
    [destruct (loop_read chunk l (messages st)) as [[l'|] p] | ..];
    cbn [fst];
    (eapply (ids_update n e0); [exact H0 | reflexivity | done]).
Qed.

Lemma ids_close (n : nat) (st : State) : ids (controller_close n st) = ids st.
Proof.
  unfold controller_close.
  destruct (exchanges st !! n) as [e0|] eqn:H0; [| done].
  destruct (x_controller e0); try done.
  destruct (x_reader e0); [| destruct (x_unread e0) ..];
    (eapply (ids_update n e0); [exact H0 | reflexivity | done]).
Qed.

Lemma ids_error (n : nat) (message : string) (st : State) :
  ids (controller_error n message st) = ids st.
Proof.
  unfold controller_error.
  destruct (exchanges st !! n) as [e0|] eqn:H0; [| done].
  destruct (x_controller e0); try done.
  destruct (x_reader e0);
    (eapply (ids_update n e0); [exact H0 | reflexivity | done]).
Qed.

Lemma ids_abort (n : nat) (st : State) :
  ids (abortController_abort n st) = ids st.
Proof.
  unfold abortController_abort.
  destruct (exchanges st !! n) as [e0|] eqn:H0; [| done].
  eapply (ids_update n e0); [exact H0 | reflexivity | done].
Qed.

Lemma ids_enqueue_body (n : nat) (data : json) (st : State) :
  ids (fst (enqueue_body n data st)) = ids st.
Proof.
  unfold enqueue_body.
  destruct (get "body" data) as [[| | | body | |]|]; try done.
  destruct (blank body); [done | apply ids_enqueue].
Qed.

Lemma ids_onMessage_frame (n : nat) (id : string) (data : json) (st : State) :
  ids (onMessage_frame n id data st) = ids st.
Proof.
  unfold onMessage_frame.
  destruct (_ && _); [| done].
  destruct (truthy_opt (get "error" data)).
  { change (ids (abortController_abort n
                   (controller_error n (error_message data) st)) = ids st).
    by rewrite ids_abort, ids_error. }
  pose proof (ids_enqueue_body n data st) as H1.
  destruct (enqueue_body n data st) as [st1 [|]]; cbn [fst] in H1; [done |].
  destruct (truthy_opt (get "done" data)); [| done].
  change (ids (abortController_abort n (controller_close n st1)) = ids st).
  by rewrite ids_abort, ids_close.
Qed.

Lemma ids_onMessage (n : nat) (raw : string) (st : State) :
  ids (onMessage n raw st) = ids st.
Proof.
  unfold onMessage.
  destruct (exchanges st !! n) as [e0|]; [| done].
  destruct (JSON_parse raw) as [data|]; [| done].
  destruct data; try apply ids_onMessage_frame. done.
Qed.

(** The listener of an exchange with another identifier ignores the
    frame. *)
Lemma onMessage_other_id (m : nat) (raw : string) (data : json) (id : string)
    (st : State) :
  is_chat_response raw data id → ids st !! m ≠ Some id →
  onMessage m raw st = st.
Proof.
  intros (Hp & Ht & Hid) Hm. unfold onMessage, ids in *.
  rewrite list_lookup_fmap in Hm.
  destruct (exchanges st !! m) as [e'|]; [| done]. rewrite Hp.
  assert (onMessage_frame m (x_id e') data st = st) as ->;
    [| by destruct data].
  unfold onMessage_frame. unfold field_is at 2. rewrite Hid.
  destruct (String.eqb_spec id (x_id e')) as [-> | _]; [done |].
  by rewrite andb_false_r.
Qed.

Lemma foldl_dispatch_others (raw : string) (data : json) (id : string)
    (ks : list nat) (st : State) :
  is_chat_response raw data id →
  (∀ m, m ∈ ks → ids st !! m ≠ Some id) →
  foldl (dispatch raw) st (OnMessage <$> ks) = st.
Proof.
  intros Hr Hks. induction ks as [|k ks IH]; [done |].
  cbn [fmap list_fmap foldl].
  assert (dispatch raw st (OnMessage k) = st) as ->.
  { unfold dispatch. destruct (bool_decide _); [| done].
    apply (onMessage_other_id k raw data id); [done |].
    apply Hks. by left. }
  apply IH. intros m Hm. apply Hks. by right.
Qed.

(** A frame for the identifier of exchange [n], which no other listening
    exchange shares, is handled by [onMessage] of [n] alone when the
    identifier is locally owned. *)
Lemma deliver_single (raw : string) (data : json) (id : string)
    (ks : list nat) (n : nat) (st : State) :
  is_chat_response raw data id →
  listeners st = HandleServerMessage :: (OnMessage <$> ks) →
  NoDup ks → n ∈ ks →
  id ∈ localRequestIds st →
  (∀ m, m ∈ ks → m ≠ n → ids st !! m ≠ Some id) →
  deliver raw st = onMessage n raw st.
Proof.
  intros Hr Hl Hnd Hn Hid Hks.
  rewrite (deliver_local raw data id st (OnMessage <$> ks) Hr Hid Hl).
  assert (OnMessage n ∈ listeners st) as Hin.
  { rewrite Hl. right. by apply list_elem_of_fmap_2. }
  clear Hl Hid. revert Hnd Hn Hks.
  induction ks as [|k ks IH]; intros Hnd Hn Hks; [by inversion Hn |].
  apply NoDup_cons in Hnd as [Hk Hnd].
  cbn [fmap list_fmap foldl].
  destruct (decide (k = n)) as [-> | Hne].
  - unfold dispatch at 2. rewrite bool_decide_eq_true_2 by done.
    cbn [invoke].
    apply (foldl_dispatch_others raw data id); [done |].
    intros m Hm. rewrite ids_onMessage. apply Hks; [by right |].
    by intros ->.
  - assert (dispatch raw st (OnMessage k) = st) as ->.
    { unfold dispatch. destruct (bool_decide _); [| done].
      apply (onMessage_other_id k raw data id); [done |].
      apply Hks; [by left | done]. }
    apply IH; [done | |].
    + by apply elem_of_cons in Hn as [-> | Hn].
    + intros m Hm. apply Hks. by right.
Qed.


(** ** An error frame for an exchange in flight *)

Lemma onMessage_error_frame (n : nat) (e : Exchange) (l : Loop)
    (raw : string) (data : json) (st : State) :
  exchanges st !! n = Some e → x_controller e = Readable →
  x_reader e = Reading l →
  is_chat_response raw data (x_id e) →
  truthy_opt (get "error" data) = true →
  let st' := onMessage n raw st in
  exchanges st' = <[n := errored (error_message data) e]> (exchanges st)
  ∧ status st' = StatusError
  ∧ error st' = Some (ErrorOf (error_message data))
  ∧ messages st' = messages st
  ∧ remoteStreams st' = remoteStreams st
  ∧ listeners st' = listeners st
  ∧ localRequestIds st' = localRequestIds st ∖ {[x_id e]}
  ∧ sent st' = sent st ∧ uncaught st' = uncaught st.
Proof.
  intros H Hc Hrd Hr He st'. subst st'.
  rewrite (onMessage_matching n e raw data st H Hr), He.
  unfold controller_error. rewrite H, Hc, Hrd.
  unfold abortController_abort.
  cbn [setStatus setError set_exchange set_exchanges exchanges].
  rewrite list_lookup_insert_eq by by eapply lookup_lt_Some.
  cbn. rewrite list_insert_insert_eq. done.
Qed.

Lemma in_flight_deliver (n : nat) (e : Exchange) (ks : list nat)
    (raw : string) (data : json) (st : State) :
  in_flight n e ks st → is_chat_response raw data (x_id e) →
  deliver raw st = onMessage n raw st.
Proof.
  intros (Hl & Hnd & Hn & _ & H & _ & _ & _ & Hid & Hks) Hr.
  by apply (deliver_single raw data (x_id e) ks).
Qed.

(** [aiFetch] adds exactly one listener, that of the new exchange. *)
Lemma aiFetch_adds_one_listener (id input method : string)
    (body : RequestBody) (signal : option bool) (st : State) :
  listeners (fst (aiFetch id input method body signal st))
  = listeners st ++ [OnMessage (length (exchanges st))]
  ∧ snd (aiFetch id input method body signal st) = length (exchanges st).
Proof. done. Qed.

(** Closing a readable stream all of whose chunks have been read removes
    the listener. *)
Lemma close_removes_listener (n : nat) (e : Exchange) (id : string)
    (st : State) :
  exchanges st !! n = Some e → x_controller e = Readable →
  x_unread e = [] →
  OnMessage n ∉ listeners
    (localRequestIds_delete id
       (abortController_abort n (controller_close n st))).
Proof.
  intros H Hc Hu.
  assert (listeners
            (localRequestIds_delete id
               (abortController_abort n (controller_close n st)))
          = listeners (flush n st)) as ->.
  { unfold controller_close. rewrite H, Hc, Hu.
    unfold abortController_abort.
    destruct (x_reader e); cbn;
      (rewrite list_lookup_insert_eq by by eapply lookup_lt_Some); done. }
  rewrite elem_of_listeners_flush. by intros [_ ?].
Qed.

(** A done frame for an exchange in flight removes its listener. *)
Lemma done_frame_removes_listener (n : nat) (e : Exchange) (ks : list nat)
    (raw : string) (data : json) (st : State) :
  in_flight n e ks st → is_chat_response raw data (x_id e) →
  truthy_opt (get "error" data) = false →
  truthy_opt (get "done" data) = true →
  body_is_text data →
  OnMessage n ∉ listeners (deliver raw st).
Proof.
  intros Hf Hr Herr Hdone Hbody.
  rewrite (in_flight_deliver n e ks raw data st Hf Hr).
  destruct Hf as (_ & _ & _ & _ & H & Hc & (l & Hrd) & Hu & _ & _).
  rewrite (onMessage_matching n e raw data st H Hr), Herr, Hdone.
  unfold enqueue_body, body_is_text in *.
  destruct (get "body" data) as [[| | | body | |]|]; try done;
    try (by eapply close_removes_listener).
  destruct (blank body); [by eapply close_removes_listener |].
  unfold controller_enqueue. rewrite H, Hc, Hrd.
  destruct (loop_read (sse_frame body) l (messages st)) as [[l'|] p];
    (eapply close_removes_listener;
     [by eapply lookup_set_exchange | done | done]).
Qed.

(** The abort listener on an exchange in flight removes its listener. *)
Lemma abort_removes_listener (n : nat) (e : Exchange) (ks : list nat)
    (st : State) :
  in_flight n e ks st → OnMessage n ∉ listeners (abort_listener n st).
Proof.
  intros (_ & _ & _ & _ & H & Hc & (l & Hrd) & Hu & _ & _).
  unfold abort_listener. rewrite H.
  unfold abortController_abort. cbn [send exchanges]. rewrite H.
  unfold controller_close. cbn [set_exchange set_exchanges exchanges].
  rewrite list_lookup_insert_eq by by eapply lookup_lt_Some.
  cbn [with_aborted x_controller x_reader]. rewrite Hc, Hrd.
  cbn. rewrite list_elem_of_filter. naive_solver.
Qed.


(** ** C5: the listener of an exchange that ends with an error *)

(** C5 (what the code does on the error path). An error frame for an
    exchange in flight errors its stream and leaves its listener on the
    shared connection, where it stays whatever happens afterwards: neither
    [flush] nor [cancel] runs for an errored stream. (On the done path and
    on the abort path the listener is removed: see
    [done_frame_removes_listener] and [abort_removes_listener].) *)
Theorem error_frame_leaves_listener
    (n : nat) (e : Exchange) (ks : list nat) (raw : string) (data : json)
    (st : State) :
  in_flight n e ks st → is_chat_response raw data (x_id e) →
  truthy_opt (get "error" data) = true →
  (∃ e', exchanges (deliver raw st) !! n = Some e'
         ∧ x_controller e' = Errored (error_message data))
  ∧ ∀ acts, OnMessage n ∈ listeners (run (deliver raw st) acts).
Proof.
  intros Hf Hr He.
  rewrite (in_flight_deliver n e ks raw data st Hf Hr).
  destruct Hf as (Hl & _ & Hn & _ & H & Hc & (l & Hrd) & _ & _ & _).
  destruct (onMessage_error_frame n e l raw data st H Hc Hrd Hr He)
    as (Hex & _ & _ & _ & _ & Hls & _).
  assert (exchanges (onMessage n raw st) !! n
          = Some (errored (error_message data) e)) as H'.
  { rewrite Hex. apply list_lookup_insert_eq. by eapply lookup_lt_Some. }
  split; [by eexists |].
  intros acts.
  destruct (advances_run acts _ n _ H') as (e2 & _ & _ & Hk).
  destruct Hk as (_ & _ & _ & _ & Hin); [done |].
  apply Hin. rewrite Hls, Hl. right. by apply list_elem_of_fmap_2.
Qed.

Lemma error_frame_leaves_listener_witness :
  let st := sendMessage "u1" "x1" ["hi"] (initial agent0) in
  let raw :=
    wire "{'type':'chat-response','id':'x1','body':'boom','error':true}" in
  (∃ e', exchanges (deliver raw st) !! 0 = Some e'
         ∧ x_controller e' = Errored "boom")
  ∧ ∀ acts, OnMessage 0 ∈ listeners (run (deliver raw st) acts).
Proof.
  intros st raw.
  apply (error_frame_leaves_listener 0
           {| x_id := "x1"; x_signal := None; x_controller := Readable;
              x_aborted := false; x_delivered := []; x_unread := [];
              x_reader := Reading loop0 |} [0] raw
           (JObj [("type", JStr "chat-response"); ("id", JStr "x1");
                  ("body", JStr "boom"); ("error", JBool true)]) st).
  - split_ands; try (vm_compute; reflexivity).
    + apply NoDup_singleton.
    + by left.
    + intros m ->%list_elem_of_singleton. cbn. lia.
    + by exists loop0.
    + intros m ->%list_elem_of_singleton. done.
  - by_computation.
  - reflexivity.
Defined.

(** The three ways out of an exchange, on the same request: the listener
    is removed by a done frame and by an abort, and is left behind by an
    error frame. *)
Example listeners_after_each_exit :
  let st := fetch_with_signal "x1" (initial agent0) in
  listeners st = [HandleServerMessage; OnMessage 0]
  ∧ listeners
      (deliver (wire "{'type':'chat-response','id':'x1','body':'','done':true}") st)
    = [HandleServerMessage]
  ∧ listeners (cancel 0 st) = [HandleServerMessage]
  ∧ listeners
      (deliver (wire "{'type':'chat-response','id':'x1','body':'boom','error':true}") st)
    = [HandleServerMessage; OnMessage 0].
Proof. vm_compute. repeat split; reflexivity. Qed.


(** ** C8: an error frame and what follows *)

Lemma onMessage_done_no_body (n : nat) (e : Exchange) (l : Loop)
    (raw : string) (data : json) (st : State) :
  exchanges st !! n = Some e → x_controller e = Readable →
  x_reader e = Reading l →
  is_chat_response raw data (x_id e) →
  truthy_opt (get "error" data) = false →
  truthy_opt (get "done" data) = true →
  no_body data →
  status (onMessage n raw st) = StatusReady.
Proof.
  intros H Hc Hrd Hr Herr Hdone Hnb.
  rewrite (onMessage_matching n e raw data st H Hr), Herr, Hdone.
  assert (enqueue_body n data st = (st, false)) as ->.
  { unfold enqueue_body, no_body in *.
    destruct (get "body" data) as [[| | | body | |]|]; try done.
    by rewrite Hnb. }
  unfold controller_close. rewrite H, Hc, Hrd.
  unfold abortController_abort. cbn.
  by rewrite list_lookup_insert_eq by by eapply lookup_lt_Some.
Qed.

(** A new [sendMessage] whose exchange identifier no listening exchange
    has is in flight. *)
Lemma sendMessage_in_flight (mid id : string) (parts : list string)
    (ks : list nat) (st : State) :
  listeners st = HandleServerMessage :: (OnMessage <$> ks) →
  NoDup ks →
  (∀ m, m ∈ ks → m < length (exchanges st)) →
  (∀ m, m ∈ ks → ids st !! m ≠ Some id) →
  in_flight (length (exchanges st)) (new_exchange id None)
    (ks ++ [length (exchanges st)]) (sendMessage mid id parts st).
Proof.
  intros Hl Hnd Hlt Hks. unfold in_flight. cbn.
  repeat split.
  - by rewrite Hl, fmap_app.
  - apply NoDup_app. split; [done |]. split; [| apply NoDup_singleton].
    intros m Hm ->%list_elem_of_singleton. specialize (Hlt _ Hm). lia.
  - apply elem_of_app. right. by left.
  - intros m [Hm | ->%list_elem_of_singleton]%elem_of_app;
      rewrite length_app; cbn; [specialize (Hlt _ Hm) |]; lia.
  - by rewrite list_lookup_middle.
  - by exists loop0.
  - set_solver.
  - intros m [Hm | ->%list_elem_of_singleton]%elem_of_app Hne; [| done].
    unfold ids. cbn. rewrite fmap_app, lookup_app_l.
    + by apply Hks.
    + rewrite length_fmap. by apply Hlt.
Qed.

(** C8. An error frame for an exchange in flight ends that exchange only:
    its stream fails with an [Error] whose message is the frame's body, the
    status becomes ["error"] and the error is kept; the message list and
    every other exchange are as before. A later [sendMessage] sets the
    status to ["streaming"] and clears the error, and the done frame of its
    exchange sets the status to ["ready"]. *)
Theorem error_frame_ends_its_exchange_only
    (n : nat) (e : Exchange) (ks : list nat) (raw : string) (data : json)
    (msg : string) (st : State)
    (mid2 id2 : string) (parts : list string) (raw2 : string) (data2 : json) :
  in_flight n e ks st →
  is_chat_response raw data (x_id e) →
  truthy_opt (get "error" data) = true →
  get "body" data = Some (JStr msg) →
  (∀ m, m ∈ ks → ids st !! m ≠ Some id2) →
  is_chat_response raw2 data2 id2 →
  truthy_opt (get "error" data2) = false →
  truthy_opt (get "done" data2) = true →
  no_body data2 →
  let st' := deliver raw st in
  let s2 := sendMessage mid2 id2 parts st' in
  exchanges st' = <[n := errored msg e]> (exchanges st)
  ∧ status st' = StatusError
  ∧ error st' = Some (ErrorOf msg)
  ∧ messages st' = messages st
  ∧ remoteStreams st' = remoteStreams st
  ∧ status s2 = StatusStreaming
  ∧ error s2 = None
  ∧ status (deliver raw2 s2) = StatusReady.
Proof.
  intros Hf Hr He Hb Hfresh Hr2 Herr2 Hdone2 Hnb2 st' s2.
  assert (st' = onMessage n raw st) as Hst'
    by by apply (in_flight_deliver n e ks raw data).
  destruct Hf as (Hl & Hnd & Hn & Hlt & H & Hc & (l & Hrd) & _ & _ & _).
  destruct (onMessage_error_frame n e l raw data st H Hc Hrd Hr He)
    as (Hex & Hs & Her & Hm & Hrs & Hls & _).
  assert (error_message data = msg) as Hmsg
    by (unfold error_message; by rewrite Hb).
  rewrite Hmsg, <- Hst' in *.
  repeat split; try done.
  assert (length (exchanges st') = length (exchanges st)) as Hlen
    by by rewrite Hex, length_insert.
  assert (ids st' = ids st) as Hids by (rewrite Hst'; apply ids_onMessage).
  pose proof (sendMessage_in_flight mid2 id2 parts ks st') as Hf2.
  rewrite Hls, Hlen, Hids in Hf2. specialize (Hf2 Hl Hnd Hlt Hfresh).
  fold s2 in Hf2.
  rewrite (in_flight_deliver _ _ _ raw2 data2 s2 Hf2 Hr2).
  destruct Hf2 as (_ & _ & _ & _ & H2 & _).
  by apply (onMessage_done_no_body _ (new_exchange id2 None) loop0 raw2 data2).
Qed.

Lemma error_frame_ends_its_exchange_only_witness :
  let st := sendMessage "u1" "x1" ["hi"] (initial agent0) in
  let raw :=
    wire "{'type':'chat-response','id':'x1','body':'boom','error':true}" in
  let raw2 :=
    wire "{'type':'chat-response','id':'x2','body':'','done':true}" in
  let st' := deliver raw st in
  let s2 := sendMessage "u2" "x2" ["again"] st' in
  exchanges st'
  = <[0 := errored "boom" (new_exchange "x1" None)]> (exchanges st)
  ∧ status st' = StatusError
  ∧ error st' = Some (ErrorOf "boom")
  ∧ messages st' = messages st
  ∧ remoteStreams st' = remoteStreams st
  ∧ status s2 = StatusStreaming
  ∧ error s2 = None
  ∧ status (deliver raw2 s2) = StatusReady.
Proof.
  intros st raw raw2.
  apply (error_frame_ends_its_exchange_only 0 (new_exchange "x1" None) [0]
           raw
           (JObj [("type", JStr "chat-response"); ("id", JStr "x1");
                  ("body", JStr "boom"); ("error", JBool true)])
           "boom" st "u2" "x2" ["again"] raw2
           (JObj [("type", JStr "chat-response"); ("id", JStr "x2");
                  ("body", JStr ""); ("done", JBool true)])).
  - split_ands; try (vm_compute; reflexivity).
    + apply NoDup_singleton.
    + by left.
    + intros m ->%list_elem_of_singleton. cbn. lia.
    + by exists loop0.
    + intros m ->%list_elem_of_singleton. done.
  - by_computation.
  - reflexivity.
  - reflexivity.
  - intros m ->%list_elem_of_singleton. done.
  - by_computation.
  - reflexivity.
  - reflexivity.
  - reflexivity.
Defined.


(** ** C9: a frame of a locally owned exchange is applied by its reader *)





(** The delta of the witness shows once in the message. *)
Example local_delta_applied_once :
  messages
    (run (initial agent0)
       [SendMessage "u1" "x1" ["hi"];
        Deliver (wire "{'type':'chat-response','id':'x1','body':'{\'type\':\'start\',\'messageId\':\'a1\'}'}");
        Deliver (wire "{'type':'chat-response','id':'x1','body':'{\'type\':\'text-delta\',\'delta\':\'Hel\'}'}")])
  = [userMessage "u1" ["hi"]; streamed "a1" "Hel"].
Proof. vm_compute. reflexivity. Qed.

(** ** C6: frames with an identifier that is not registered *)

Lemma state_eq (s s' : State) :
  same_but_uncaught s s' → uncaught s' = uncaught s → s' = s.
Proof.
  destruct s, s'. unfold same_but_uncaught. cbn.
  intros (-> & -> & -> & -> & -> & -> & -> & -> & ->) ->. done.
Qed.

Lemma same_but_uncaught_refl (s : State) : same_but_uncaught s s.
Proof. by repeat split. Qed.

Lemma same_but_uncaught_trans (s1 s2 s3 : State) :
  same_but_uncaught s1 s2 → same_but_uncaught s2 s3 →
  same_but_uncaught s1 s3.
Proof. unfold same_but_uncaught. intros ? ?. intuition congruence. Qed.

Lemma error_settled (n : nat) (e : Exchange) (msg : string) (st : State) :
  exchanges st !! n = Some e → x_controller e ≠ Readable →
  controller_error n msg st = st.
Proof.
  intros H Hc. unfold controller_error. rewrite H.
  by destruct (x_controller e).
Qed.

Lemma abort_settled (n : nat) (e : Exchange) (st : State) :
  exchanges st !! n = Some e → x_aborted e = true →
  abortController_abort n st = st.
Proof.
  intros H Ha. unfold abortController_abort. rewrite H.
  apply state_eq; [| done]. repeat split; try done. cbn.
  apply list_insert_id. rewrite H. f_equal. by destruct e; cbn in *; subst.
Qed.

Lemma delete_absent (id : string) (st : State) :
  id ∉ localRequestIds st → localRequestIds_delete id st = st.
Proof.
  intros H. apply state_eq; [| done]. repeat split; try done. cbn.
  set_solver.
Qed.

Lemma enqueue_settled (n : nat) (e : Exchange) (c : string) (st : State) :
  exchanges st !! n = Some e → x_controller e ≠ Readable →
  controller_enqueue n c st = (st, true).
Proof.
  intros H Hc. unfold controller_enqueue. rewrite H.
  by destruct (x_controller e).
Qed.

(** The broadcast handler on a frame that is not a start event, for an
    identifier that is neither locally owned nor a remote stream. *)
Lemma handleServerMessage_unknown (raw : string) (data : json) (id : string)
    (st : State) :
  is_chat_response raw data id →
  id ∉ localRequestIds st → remoteStreams st !! id = None →
  not_start data →
  handleServerMessage raw st = st.
Proof.
  intros Hr Hid Hrs [_ Hns].
  rewrite (handleServerMessage_response _ _ _ _ Hr).
  rewrite bool_decide_eq_false_2 by done.
  unfold remote_chunk.
  destruct (get "body" data) as [[| | | body | |]|] eqn:Hb; try done.
  destruct (JSON_parse body) as [chunk|] eqn:Hp; [| done].
  assert ((if field_is "type" chunk "start"
           then truthy_string "messageId" chunk else None) = None) as ->.
  { assert (has_chunk data chunk) as Hc by (by exists body).
    specialize (Hns chunk Hc).
    destruct (field_is "type" chunk "start"); [| done].
    unfold truthy_string, get_string. cbn in Hns.
    destruct (get "messageId" chunk) as [[| | | mid | |]|]; try done.
    cbn in Hns. by destruct (String.eqb mid ""). }
  rewrite Hrs.
  assert (set_remoteStreams (delete id (remoteStreams st)) st = st) as ->.
  { apply state_eq; [| done]. repeat split; try done. cbn.
    by apply delete_id. }
  destruct chunk; try done; by repeat case_match.
Qed.

(** The listener of an exchange on a frame whose identifier is released
    and belongs to ended exchanges only. *)
Lemma onMessage_unknown (n : nat) (raw : string) (data : json) (id : string)
    (st : State) :
  is_chat_response raw data id →
  id ∉ localRequestIds st → all_ended id st →
  same_but_uncaught st (onMessage n raw st).
Proof.
  intros Hr Hid Hend.
  destruct (exchanges st !! n) as [e|] eqn:H.
  2:{ unfold onMessage. rewrite H. apply same_but_uncaught_refl. }
  destruct (decide (x_id e = id)) as [<- | Hne].
  2:{ rewrite (onMessage_other_id n raw data id);
        [apply same_but_uncaught_refl | done |].
      unfold ids. rewrite list_lookup_fmap, H. cbn. congruence. }
  destruct (Hend n e H eq_refl) as [Hc Ha].
  rewrite (onMessage_matching n e raw data st H Hr).
  assert (localRequestIds_delete (x_id e) (abortController_abort n st) = st)
    as Hda.
  { rewrite (abort_settled n e) by done. by apply delete_absent. }
  destruct (truthy_opt (get "error" data)).
  { rewrite (error_settled n e) by done. rewrite Hda.
    apply same_but_uncaught_refl. }
  assert (enqueue_body n data st = (st, false)
          ∨ enqueue_body n data st = (st, true)) as [-> | ->].
  { unfold enqueue_body.
    destruct (get "body" data) as [[| | | body | |]|]; auto.
    destruct (blank body); [auto |].
    rewrite (enqueue_settled n e) by done. auto. }
  - destruct (truthy_opt (get "done" data));
      [| apply same_but_uncaught_refl].
    rewrite (close_settled n e) by done. rewrite Hda.
    apply same_but_uncaught_refl.
  - by repeat split.
Qed.

Lemma deliver_unknown (raw : string) (data : json) (id : string)
    (st : State) :
  is_chat_response raw data id →
  id ∉ localRequestIds st → remoteStreams st !! id = None →
  not_start data → all_ended id st →
  same_but_uncaught st (deliver raw st).
Proof.
  intros Hr Hid Hrs Hns Hend. unfold deliver.
  assert (∀ ls s, same_but_uncaught st s →
               same_but_uncaught st (foldl (dispatch raw) s ls)) as Hgen;
    [| apply Hgen, same_but_uncaught_refl].
  induction ls as [|l ls IH]; intros s Hs; [done |].
  cbn [foldl]. apply IH.
  eapply same_but_uncaught_trans; [exact Hs |].
  destruct Hs as (_ & _ & _ & _ & Hli & Hr' & _ & _ & Hex).
  unfold dispatch. destruct (bool_decide _);
    [| apply same_but_uncaught_refl].
  destruct l as [|n]; cbn [invoke].
  - rewrite (handleServerMessage_unknown raw data id);
      [apply same_but_uncaught_refl | done | by rewrite Hli
      | by rewrite Hr' | done].
  - apply (onMessage_unknown n raw data id); [done | by rewrite Hli |].
    unfold all_ended. by rewrite Hex.
Qed.

(** C6, as stated, fails: a chat-response frame with an identifier that is
    neither locally owned nor a known remote stream is not ignored when it
    carries a start event. Here another client's exchange is broadcast
    while a local one is in flight: the frame appends a message and
    registers its identifier as a remote stream. *)
Lemma unregistered_start_counterexample :
  let st := sendMessage "u1" "x1" ["hi"] (initial agent0) in
  let st1 :=
    deliver (wire "{'type':'chat-response','id':'r9','body':'{\'type\':\'start\',\'messageId\':\'b7\'}'}") st in
  ("r9" ∉ localRequestIds st)
  ∧ remoteStreams st !! "r9" = None
  ∧ messages st = [userMessage "u1" ["hi"]]
  ∧ messages st1 = [userMessage "u1" ["hi"]; assistantMessage "b7"]
  ∧ remoteStreams st1 !! "r9"
    = Some {| messageId := "b7"; textContent := "" |}.
Proof. vm_compute. repeat split; try reflexivity; set_solver. Qed.

(** C6, amended. A chat-response frame whose identifier is neither locally
    owned nor a known remote stream, and belongs to no exchange that is
    still running, changes nothing in the message list, the exchanges, the
    two tables, the status or the error, unless its body is a start event
    with a message identifier. Here the body is absent, [null] or a
    string, and "a start event with a message identifier" is an event of
    type ["start"] whose [messageId] is truthy, of whatever type. When the
    body is such an event, with a string for identifier, the broadcast
    handler registers the frame's identifier as a remote stream and appends
    an empty assistant message. *)
Theorem unregistered_frame_ignored_unless_start
    (raw : string) (data : json) (id : string) (st : State) :
  is_chat_response raw data id →
  id ∉ localRequestIds st → remoteStreams st !! id = None →
  all_ended id st →
  (not_start data → same_but_uncaught st (deliver raw st))
  ∧ (∀ chunk mid, has_chunk data chunk → is_start chunk mid → mid ≠ "" →
       messages (handleServerMessage raw st)
       = messages st ++ [assistantMessage mid]
       ∧ remoteStreams (handleServerMessage raw st)
         = <[id := {| messageId := mid; textContent := "" |}]>
             (remoteStreams st)).
Proof.
  intros Hr Hid Hrs Hend. split.
  - intros Hns. by apply (deliver_unknown raw data id).
  - intros chunk mid Hc Hs Hne.
    rewrite (handleServerMessage_response _ _ _ _ Hr).
    rewrite bool_decide_eq_false_2 by done.
    by rewrite (remote_chunk_start _ _ _ _ _ Hc Hs Hne).
Qed.

Lemma unregistered_frame_ignored_unless_start_witness :
  let st := cancel 0 (fetch_with_signal "x1" (initial agent0)) in
  let raw :=
    wire "{'type':'chat-response','id':'x1','body':'{\'type\':\'text-delta\',\'delta\':\'late\'}'}" in
  let data :=
    JObj [("type", JStr "chat-response"); ("id", JStr "x1");
          ("body", JStr (wire "{'type':'text-delta','delta':'late'}"))] in
  (not_start data → same_but_uncaught st (deliver raw st))
  ∧ (∀ chunk mid, has_chunk data chunk → is_start chunk mid → mid ≠ "" →
       messages (handleServerMessage raw st)
       = messages st ++ [assistantMessage mid]
       ∧ remoteStreams (handleServerMessage raw st)
         = <[ "x1" := {| messageId := mid; textContent := "" |}]>
             (remoteStreams st)).
Proof.
  intros st raw data.
  apply (unregistered_frame_ignored_unless_start raw data "x1" st).
  - by_computation.
  - vm_compute. set_solver.
  - reflexivity.
  - intros m e H Hid. destruct m as [|m]; [| done].
    vm_compute in H. injection H as <-. done.
Defined.

(** A start event whose [messageId] is a number is a start event with a
    message identifier, the late text-delta of the witness is not. *)
Example not_start_by_truthiness :
  ¬ not_start
      (JObj [("type", JStr "chat-response"); ("id", JStr "r9");
             ("body", JStr (wire "{'type':'start','messageId':5}"))])
  ∧ not_start
      (JObj [("type", JStr "chat-response"); ("id", JStr "x1");
             ("body", JStr (wire "{'type':'text-delta','delta':'late'}"))]).
Proof.
  split.
  - intros [_ H].
    assert (field_is "type"
              (JObj [("type", JStr "start"); ("messageId", JNum 5 0)])
              "start"
            && truthy_opt
                 (get "messageId"
                    (JObj [("type", JStr "start"); ("messageId", JNum 5 0)]))
            = false) as Hf; [| discriminate Hf].
    apply H. exists (wire "{'type':'start','messageId':5}").
    split; vm_compute; reflexivity.
  - split; [done |]. intros chunk (body & Hb & Hp).
    injection Hb as <-. vm_compute in Hp. by injection Hp as <-.
Qed.

(** * Further properties of the client *)

(** ** [getAgentUrl] and the history path *)

Lemma replace_absent (pat rep s : string) :
  includes pat s = false → replace pat rep s = s.
Proof.
  induction s as [|c r IH]; intros H.
  - cbn in *. by destruct (strip_prefix pat "").
  - cbn [includes replace] in *.
    destruct (strip_prefix pat (String c r)); [done |].
    by rewrite IH.
Qed.

(** [getAgentUrl] turns a WebSocket address into the HTTP address with the
    same rest, for the secure and for the plain scheme, when the rest
    holds no further scheme text of the kind replaced. An address that is
    not empty and holds no such text at all is returned as it is; the
    empty address, and no address, give ["/api/chat"]. *)
Theorem getAgentUrl_scheme (rest : string) (_pkurl : option string) :
  includes "ws://" rest = false →
  includes "wss://" rest = false →
  getAgentUrl (Some ("wss://" +:+ rest)) _pkurl = "https://" +:+ rest
  ∧ getAgentUrl (Some ("ws://" +:+ rest)) _pkurl = "http://" +:+ rest
  ∧ getAgentUrl None (Some ("wss://" +:+ rest)) = "https://" +:+ rest
  ∧ (rest ≠ "" → getAgentUrl (Some rest) _pkurl = rest)
  ∧ getAgentUrl (Some "") _pkurl = "/api/chat"
  ∧ getAgentUrl None None = "/api/chat".
Proof.
  intros Hws Hwss.
  assert (replace "wss://" "https://"
            (replace "ws://" "http://" ("wss://" +:+ rest))
          = "https://" +:+ rest) as E1.
  { rewrite !append_cons, append_nil_l. simpl.
    by rewrite (replace_absent "ws://" "http://" rest Hws). }
  assert (replace "wss://" "https://"
            (replace "ws://" "http://" ("ws://" +:+ rest))
          = "http://" +:+ rest) as E2.
  { rewrite !append_cons, append_nil_l. simpl. rewrite append_nil_l.
    by rewrite (replace_absent "wss://" "https://" rest Hwss). }
  split; [exact E1 |]. split; [exact E2 |]. split; [exact E1 |].
  split; [| done].
  intros Hne%String.eqb_neq. unfold getAgentUrl. rewrite Hne.
  rewrite (replace_absent "ws://" "http://" rest Hws).
  by apply replace_absent.
Qed.

Lemma getAgentUrl_scheme_witness :
  getAgentUrl (Some ("wss://" +:+ "h.example/agents/chat/room")) None
  = "https://" +:+ "h.example/agents/chat/room"
  ∧ getAgentUrl (Some ("ws://" +:+ "h.example/agents/chat/room")) None
    = "http://" +:+ "h.example/agents/chat/room"
  ∧ getAgentUrl None (Some ("wss://" +:+ "h.example/agents/chat/room"))
    = "https://" +:+ "h.example/agents/chat/room"
  ∧ ("h.example/agents/chat/room" ≠ "" →
     getAgentUrl (Some "h.example/agents/chat/room") None
     = "h.example/agents/chat/room")
  ∧ getAgentUrl (Some "") None = "/api/chat"
  ∧ getAgentUrl None None = "/api/chat".
Proof.
  apply (getAgentUrl_scheme "h.example/agents/chat/room" None);
    vm_compute; reflexivity.
Defined.

(** The replacement is not anchored at the start of the address. *)
Example getAgentUrl_inner_scheme :
  getAgentUrl (Some "wss://h/?next=ws://other") None
  = "https://h/?next=http://other".
Proof. reflexivity. Qed.

Lemma strip_trailing_slashes_slashes (k : nat) :
  strip_trailing_slashes (slashes k) = "".
Proof. induction k as [|k IH]; [done |]. cbn. by rewrite IH. Qed.

(** Trailing slashes of the base path do not show in the history path:
    any number of them gives the path of the base without them. *)
Theorem history_pathname_trailing_slashes (p : string) (k : nat) :
  history_pathname (p +:+ slashes k) = history_pathname p.
Proof.
  unfold history_pathname. f_equal.
  induction p as [|c r IH].
  - apply strip_trailing_slashes_slashes.
  - rewrite append_cons. cbn [strip_trailing_slashes]. by rewrite IH.
Qed.

(** ** [parseSSEStream]: lines, partial lines and the frames of
    [onMessage] *)

Lemma one_line_app (a c : string) :
  split_lines a = [a] → split_lines c = [c] →
  split_lines (a +:+ c) = [a +:+ c].
Proof.
  intros Ha Hc. induction a as [|x r IH]; [done |].
  rewrite append_cons. simpl in *.
  destruct (Ascii.eqb x LF).
  - pose proof (split_lines_nonempty r). by destruct (split_lines r).
  - destruct (split_lines r) as [|l ls] eqn:Hr;
      [by destruct (split_lines_nonempty r) |].
    injection Ha as -> ->. by rewrite IH.
Qed.

(** A last chunk without a line feed yields nothing: the unfinished line
    stays in the buffer, and is dropped when the stream ends. *)
Theorem partial_last_line_not_emitted (chunks : list string) (c : string) :
  split_lines c = [c] →
  parseSSEStream "" (chunks ++ [c]) = parseSSEStream "" chunks.
Proof.
  intros Hc.
  rewrite !parseSSEStream_concat by done.
  rewrite !append_nil_l, concat_app, split_lines_app.
  change (Text.concat [c]) with (c +:+ ""). rewrite append_nil_r.
  rewrite (one_line_app _ c (pop_last_one_line _) Hc).
  unfold pop_init at 1. by rewrite removelast_last.
Qed.

Lemma partial_last_line_not_emitted_witness :
  parseSSEStream ""
    ([wire "data: {'type':'finish'}||"] ++ [wire "data: {'type':'finish'}"])
  = parseSSEStream "" [wire "data: {'type':'finish'}||"].
Proof.
  apply (partial_last_line_not_emitted
           [wire "data: {'type':'finish'}||"] (wire "data: {'type':'finish'}")).
  vm_compute. reflexivity.
Defined.

Lemma frames_events_skipping (bodies : list string) :
  Forall (λ b, split_lines b = [b] ∧ blank b = false) bodies →
  omap line_event
    (pop_init (split_lines (Text.concat (map sse_frame bodies))))
  = omap JSON_parse bodies.
Proof.
  intros H.
  rewrite split_lines_frames.
  2:{ induction H as [|b bs [Hb _] _ IH]; by constructor. }
  unfold pop_init. rewrite removelast_last.
  induction H as [|b bs [Hb Hk] _ IH]; [done |].
  change (flat_map (λ b, ["data: " +:+ b; ""]) (b :: bs))
    with (["data: " +:+ b; ""] ++ flat_map (λ b, ["data: " +:+ b; ""]) bs).
  rewrite omap_app, IH.
  change (b :: bs) with ([b] ++ bs). rewrite (omap_app _ [b] bs). f_equal.
  destruct (JSON_parse b) as [ev|] eqn:Hp.
  - rewrite (omap_frame_lines b ev) by done. cbn. by rewrite Hp.
  - destruct b as [|c r]; [done |].
    cbn -[blank JSON_parse line_event].
    change (line_event ("data: " +:+ String c r))
      with (if blank (String c r) then None else JSON_parse (String c r)).
    by rewrite Hk, Hp.
Qed.

(** What [onMessage] enqueues, [parseSSEStream] gives back: for frame
    bodies without line feeds that are not blank, the values yielded are
    the bodies that parse as JSON, in order, however the stream is cut into
    chunks; a body that does not parse is skipped and costs nothing
    else. *)
Theorem frames_round_trip (bodies chunks : list string) :
  Forall (λ b, split_lines b = [b] ∧ blank b = false) bodies →
  Text.concat chunks = Text.concat (map sse_frame bodies) →
  parseSSEStream "" chunks = omap JSON_parse bodies.
Proof.
  intros H Hc. rewrite parseSSEStream_concat by done.
  rewrite append_nil_l, Hc. by apply frames_events_skipping.
Qed.

Lemma frames_round_trip_witness :
  parseSSEStream ""
    [wire "data: {'type':'start','messageId':'a1'}||data: {no";
     wire "t json||data: 7||"]
  = omap JSON_parse [wire "{'type':'start','messageId':'a1'}";
                     "{not json"; "7"].
Proof.
  apply (frames_round_trip
           [wire "{'type':'start','messageId':'a1'}"; "{not json"; "7"]).
  - repeat (apply List.Forall_cons; [split; vm_compute; reflexivity |]).
    apply List.Forall_nil.
  - vm_compute. reflexivity.
Defined.

(** ** The text update of both text-delta branches *)

Lemma assoc_obj_set_ne (k k' : string) (v : json)
    (fs : list (string * json)) :
  k ≠ k' → assoc k (obj_set k' v fs) = assoc k fs.
Proof.
  intros Hne. induction fs as [|[k0 v0] fs IH]; cbn.
  - by apply String.eqb_neq in Hne as ->.
  - destruct (String.eqb_spec k' k0) as [-> | Hk]; cbn.
    + by apply String.eqb_neq in Hne as ->.
    + by rewrite IH.
Qed.

Lemma assoc_obj_set_eq (k : string) (v : json) (fs : list (string * json)) :
  assoc k (obj_set k v fs) = Some v.
Proof.
  induction fs as [|[k0 v0] fs IH]; cbn.
  - by rewrite String.eqb_refl.
  - destruct (String.eqb_spec k k0) as [-> | Hk]; cbn.
    + by rewrite String.eqb_refl.
    + by apply String.eqb_neq in Hk as ->.
Qed.

Lemma findIndex_found (mid : string) (prev : list json) (i : nat) :
  findIndex mid prev = Found i →
  ∃ m, prev !! i = Some m ∧ field_is "id" m mid = true.
Proof.
  revert i. induction prev as [|a r IH]; intros i H; [done |].
  cbn [findIndex] in H.
  assert (a ≠ JNull →
          (if field_is "id" a mid then Found 0
           else match findIndex mid r with
                | Found i => Found (S i)
                | other => other
                end) = Found i →
          ∃ m, (a :: r) !! i = Some m ∧ field_is "id" m mid = true) as Hgen.
  { intros _ Hi. destruct (field_is "id" a mid) eqn:Hf.
    - injection Hi as <-. by exists a.
    - destruct (findIndex mid r) as [j| |]; try done.
      injection Hi as <-. by apply IH. }
  destruct a; try done; by apply Hgen.
Qed.

Lemma withText_id (text : string) (m : json) (mid : string) :
  field_is "id" m mid = true →
  get "id" (withText text m) = get "id" m
  ∧ get "parts" (withText text m) = Some (JArr [textPart text]).
Proof.
  intros H. destruct m; try done. cbn.
  split; [by apply assoc_obj_set_ne | apply assoc_obj_set_eq].
Qed.

(** A text update changes one message at most, the first one with the
    target identifier: its parts become the single text part; every other
    message, the length and order of the list and every identifier in it
    are kept. When no message has the identifier the list is returned as it
    is. *)
Theorem applyText_touches_first_match
    (mid text : string) (prev upd : list json) :
  applyText mid text prev = Some upd →
  length upd = length prev
  ∧ (get "id" <$> upd) = (get "id" <$> prev)
  ∧ (∀ j, findIndex mid prev ≠ Found j → upd !! j = prev !! j)
  ∧ (∀ i, findIndex mid prev = Found i →
       ∃ m, upd !! i = Some m
            ∧ field_is "id" m mid = true
            ∧ get "parts" m = Some (JArr [textPart text]))
  ∧ (findIndex mid prev = NotFound → upd = prev).
Proof.
  unfold applyText. intros H.
  destruct (findIndex mid prev) as [i| |] eqn:Hf; [| by simplify_eq | done].
  destruct (findIndex_found mid prev i Hf) as (m & Hm & Hid).
  rewrite Hm in H. injection H as <-.
  destruct (withText_id text m mid Hid) as [Hi Hp].
  split; [by rewrite length_insert |]. split; [| split; [| split]].
  - rewrite list_fmap_insert, Hi. apply list_insert_id.
    by rewrite list_lookup_fmap, Hm.
  - intros j Hj. apply list_lookup_insert_ne. congruence.
  - intros i' [= <-]. exists (withText text m).
    rewrite list_lookup_insert_eq by by eapply lookup_lt_Some.
    split; [done |]. split; [| done].
    unfold field_is in *. by rewrite Hi.
  - done.
Qed.

Lemma applyText_touches_first_match_witness :
  let prev := [userMessage "u1" ["hi"]; streamed "a1" "Hel";
               streamed "a1" "x"] in
  let upd := [userMessage "u1" ["hi"]; streamed "a1" "Hello";
              streamed "a1" "x"] in
  length upd = length prev
  ∧ (get "id" <$> upd) = (get "id" <$> prev)
  ∧ (∀ j, findIndex "a1" prev ≠ Found j → upd !! j = prev !! j)
  ∧ (∀ i, findIndex "a1" prev = Found i →
       ∃ m, upd !! i = Some m
            ∧ field_is "id" m "a1" = true
            ∧ get "parts" m = Some (JArr [textPart "Hello"]))
  ∧ (findIndex "a1" prev = NotFound → upd = prev).
Proof.
  intros prev upd.
  apply (applyText_touches_first_match "a1" "Hello" prev upd).
  reflexivity.
Defined.

(** ** Frames that are not chat responses *)

Lemma onMessage_other_type (n : nat) (raw : string) (data : json)
    (st : State) :
  JSON_parse raw = Some data → data ≠ JNull →
  field_is "type" data CF_AGENT_USE_CHAT_RESPONSE = false →
  onMessage n raw st = st.
Proof.
  intros Hp Hn Ht. unfold onMessage.
  destruct (exchanges st !! n) as [e|]; [| done]. rewrite Hp.
  assert (onMessage_frame n (x_id e) data st = st) as ->;
    [| by destruct data].
  unfold onMessage_frame. by rewrite Ht.
Qed.

(** A frame only the broadcast handler reacts to, and on which it applies
    [f], has the effect of [f] once the handler is registered. *)
Lemma foldl_dispatch_handler (raw : string) (f : State → State) :
  (∀ n s, onMessage n raw s = s) →
  (∀ s, handleServerMessage raw s = f s) →
  (∀ s, f (f s) = f s) →
  (∀ s, listeners (f s) = listeners s) →
  ∀ ls s, HandleServerMessage ∈ listeners s →
    foldl (dispatch raw) s ls
    = if bool_decide (HandleServerMessage ∈ ls) then f s else s.
Proof.
  intros Hon Hh Hff Hl. induction ls as [|l ls IH]; intros s Hs; [done |].
  cbn [foldl]. destruct l as [|n].
  - unfold dispatch at 2. rewrite bool_decide_eq_true_2 by done.
    cbn [invoke]. rewrite Hh, IH by by rewrite Hl.
    rewrite Hff. rewrite (bool_decide_eq_true_2 (_ ∈ _ :: _)) by by left.
    by destruct (bool_decide _).
  - assert (dispatch raw s (OnMessage n) = s) as ->.
    { unfold dispatch.
      destruct (bool_decide (OnMessage n ∈ listeners s)); [apply Hon | done]. }
    rewrite IH by done.
    rewrite (bool_decide_ext (HandleServerMessage ∈ OnMessage n :: ls)
               (HandleServerMessage ∈ ls)); [done |].
    rewrite elem_of_cons. naive_solver.
Qed.

Lemma deliver_handler (raw : string) (f : State → State) (st : State) :
  (∀ n s, onMessage n raw s = s) →
  (∀ s, handleServerMessage raw s = f s) →
  (∀ s, f (f s) = f s) →
  (∀ s, listeners (f s) = listeners s) →
  HandleServerMessage ∈ listeners st →
  deliver raw st = f st.
Proof.
  intros Hon Hh Hff Hl Hin. unfold deliver.
  rewrite (foldl_dispatch_handler raw f Hon Hh Hff Hl) by done.
  by rewrite bool_decide_eq_true_2.
Qed.

(** A chat-clear frame from the server empties the message list and
    touches nothing else: every exchange in flight, every mirror of a
    remote stream with the text it has accumulated, the status and the
    error are kept, and nothing is sent. *)
Theorem broadcast_clear_empties_messages
    (raw : string) (data : json) (st : State) :
  JSON_parse raw = Some data →
  field_is "type" data CF_AGENT_CHAT_CLEAR = true →
  HandleServerMessage ∈ listeners st →
  deliver raw st = setMessagesStore [] st.
Proof.
  intros Hp Ht Hin.
  apply (deliver_handler raw (setMessagesStore [])); try done.
  - intros n s. apply (onMessage_other_type n raw data); [done | |].
    + by apply (field_is_not_null _ _ _ Ht).
    + by apply (field_is_other _ _ _ _ Ht).
  - intros s. unfold handleServerMessage. rewrite Hp, Ht. by destruct data.
Qed.

Lemma broadcast_clear_empties_messages_witness :
  deliver (wire "{'type':'chat-clear'}")
    (sendMessage "u1" "r1" ["hi"] (initial agent0))
  = setMessagesStore [] (sendMessage "u1" "r1" ["hi"] (initial agent0)).
Proof.
  apply (broadcast_clear_empties_messages _
           (JObj [("type", JStr "chat-clear")]));
    [vm_compute; reflexivity | vm_compute; reflexivity |].
  apply list_elem_of_here.
Defined.

(** A chat-messages frame from the server replaces the message list by the
    array it carries, the empty array included, and touches nothing else;
    a frame of that type without [messages], or with [null] there, changes
    nothing at all. *)
Theorem broadcast_snapshot_replaces_messages
    (raw : string) (data : json) (st : State) :
  JSON_parse raw = Some data →
  field_is "type" data CF_AGENT_CHAT_MESSAGES = true →
  HandleServerMessage ∈ listeners st →
  (∀ ms, get "messages" data = Some (JArr ms) →
         deliver raw st = setMessagesStore ms st)
  ∧ (get "messages" data = None ∨ get "messages" data = Some JNull →
     deliver raw st = st).
Proof.
  intros Hp Ht Hin.
  assert (∀ n s, onMessage n raw s = s) as Hon.
  { intros n s. apply (onMessage_other_type n raw data); [done | |].
    + by apply (field_is_not_null _ _ _ Ht).
    + by apply (field_is_other _ _ _ _ Ht). }
  assert (∀ s, handleServerMessage raw s
               = match get "messages" data with
                 | Some (JArr ms) => setMessagesStore ms s
                 | _ => s
                 end) as Hh.
  { intros s. unfold handleServerMessage. rewrite Hp.
    rewrite (field_is_other _ _ _ CF_AGENT_CHAT_CLEAR Ht) by done.
    rewrite Ht. by destruct data. }
  split.
  - intros ms Hms. rewrite Hms in Hh.
    by apply (deliver_handler raw (setMessagesStore ms)).
  - intros Hms. apply (deliver_handler raw id); try done.
    intros s. rewrite Hh. by destruct Hms as [-> | ->].
Qed.

Lemma broadcast_snapshot_replaces_messages_witness :
  let raw := wire "{'type':'chat-messages','messages':[]}" in
  let data := JObj [("type", JStr "chat-messages");
                    ("messages", JArr [])] in
  let st := sendMessage "u1" "r1" ["hi"] (initial agent0) in
  (∀ ms, get "messages" data = Some (JArr ms) →
         deliver raw st = setMessagesStore ms st)
  ∧ (get "messages" data = None ∨ get "messages" data = Some JNull →
     deliver raw st = st).
Proof.
  intros raw data st.
  apply (broadcast_snapshot_replaces_messages raw data st);
    [vm_compute; reflexivity | vm_compute; reflexivity |].
  apply list_elem_of_here.
Defined.

Lemma foldl_dispatch_fixed_in (raw : string) (ls : list Listener)
    (st : State) :
  (∀ l, l ∈ listeners st → invoke l raw st = st) →
  foldl (dispatch raw) st ls = st.
Proof.
  intros H. induction ls as [|l ls IH]; [done |].
  cbn [foldl]. unfold dispatch at 2.
  destruct (bool_decide_reflect (l ∈ listeners st)); [| done].
  by rewrite H.
Qed.

(** Once [onCleanup] has removed the broadcast handler, a frame that is
    not the response of one of the client's own exchanges changes nothing:
    clear and snapshot frames no longer reach the message list, and remote
    streams are no longer mirrored. *)
Theorem cleanup_stops_broadcasts (raw : string) (data : json) (st : State) :
  JSON_parse raw = Some data → data ≠ JNull →
  (∀ e, e ∈ exchanges st →
        field_is "type" data CF_AGENT_USE_CHAT_RESPONSE
        && field_is "id" data (x_id e) = false) →
  deliver raw (onCleanup st) = onCleanup st.
Proof.
  intros Hp Hn Hex. unfold deliver. apply foldl_dispatch_fixed_in.
  intros [|n] Hin.
  - cbn in Hin. apply list_elem_of_filter in Hin as [? _]. done.
  - cbn [invoke]. unfold onMessage.
    change (exchanges (onCleanup st)) with (exchanges st).
    destruct (exchanges st !! n) as [e|] eqn:He; [| done]. rewrite Hp.
    assert (onMessage_frame n (x_id e) data (onCleanup st) = onCleanup st)
      as ->; [| by destruct data].
    unfold onMessage_frame. rewrite Hex; [done |].
    by eapply list_elem_of_lookup_2.
Qed.

Lemma cleanup_stops_broadcasts_witness :
  deliver (wire "{'type':'chat-clear'}")
    (onCleanup (sendMessage "u1" "r1" ["hi"] (initial agent0)))
  = onCleanup (sendMessage "u1" "r1" ["hi"] (initial agent0)).
Proof.
  apply (cleanup_stops_broadcasts _
           (JObj [("type", JStr "chat-clear")])).
  - vm_compute. reflexivity.
  - done.
  - intros e He. vm_compute in He.
    apply list_elem_of_singleton in He as ->. vm_compute. reflexivity.
Defined.

Lemma foldl_dispatch_null (raw : string) (st : State) :
  JSON_parse raw = Some JNull →
  (∀ n, OnMessage n ∈ listeners st → n < length (exchanges st)) →
  ∀ ls s, (∀ l, l ∈ ls → l ∈ listeners st) → same_but_uncaught st s →
    same_but_uncaught st (foldl (dispatch raw) s ls)
    ∧ uncaught (foldl (dispatch raw) s ls) = uncaught s + length ls.
Proof.
  intros Hp Hlt. induction ls as [|l ls IH]; intros s Hls Hs.
  - cbn. split; [done | lia].
  - cbn [foldl length].
    assert (dispatch raw s l = throw s) as ->.
    { unfold dispatch. pose proof Hs as (_ & _ & _ & _ & _ & _ & Hl & _ & Hx).
      rewrite Hl, bool_decide_eq_true_2 by (apply Hls; by left).
      destruct l as [|n]; cbn [invoke].
      - unfold handleServerMessage. by rewrite Hp.
      - unfold onMessage. rewrite Hx.
        destruct (lookup_lt_is_Some_2 (exchanges st) n) as [e ->].
        { apply Hlt, Hls. by left. }
        by rewrite Hp. }
    destruct (IH (throw s)) as [H1 H2].
    + intros l' Hl'. apply Hls. by right.
    + exact Hs.
    + split; [done |]. rewrite H2. cbn. lia.
Qed.

(** A frame whose payload is the JSON value [null] parses, and then every
    registered listener throws when it reads [data.type]: one uncaught
    exception per listener, and nothing else changes. *)
Theorem null_frame_throws_in_every_listener (raw : string) (st : State) :
  JSON_parse raw = Some JNull →
  (∀ n, OnMessage n ∈ listeners st → n < length (exchanges st)) →
  same_but_uncaught st (deliver raw st)
  ∧ uncaught (deliver raw st) = uncaught st + length (listeners st).
Proof.
  intros Hp Hlt. unfold deliver.
  apply (foldl_dispatch_null raw st Hp Hlt); [done |].
  apply same_but_uncaught_refl.
Qed.

Lemma null_frame_throws_in_every_listener_witness :
  let st := sendMessage "u1" "r1" ["hi"] (initial agent0) in
  same_but_uncaught st (deliver "null" st)
  ∧ uncaught (deliver "null" st) = uncaught st + length (listeners st).
Proof.
  intros st. apply (null_frame_throws_in_every_listener "null" st).
  - vm_compute. reflexivity.
  - intros n Hn. vm_compute in Hn.
    apply elem_of_cons in Hn as [Hn | Hn]; [done |].
    apply list_elem_of_singleton in Hn. injection Hn as ->.
    vm_compute. lia.
Defined.

(** ** The text accumulated by the loop of [sendMessage] *)




(** Text-delta events that reach the loop before any start event, or once
    the message being streamed is no longer in the list, change no message
    and are still added to the loop's text. *)
Theorem deltas_without_message_accumulate
    (l : Loop) (evs : list json) (fs : list string) (prev : list json) :
  Forall2 is_text_delta evs fs →
  (∀ mid, assistantMessageId l = Some mid →
          findIndex mid prev = NotFound) →
  loop_events evs l prev
  = (Some {| assistantMessageId := assistantMessageId l;
             loop_textContent := loop_textContent l +:+ Text.concat fs;
             buffer := buffer l |}, prev).
Proof.
  intros H. revert l.
  induction H as [|ev f evs fs Hd _ IH]; intros l Hl.
  - change (Text.concat []) with "". rewrite append_nil_r. by destruct l.
  - cbn [loop_events]. rewrite (loop_body_delta _ _ _ _ Hd).
    destruct (String.eqb_spec f "") as [-> | Hf].
    + rewrite concat_cons, append_nil_l. by apply IH.
    + cbn zeta.
      assert (match assistantMessageId l with
              | Some mid =>
                  match applyText mid (loop_textContent l +:+ f) prev with
                  | Some upd =>
                      Some ({| assistantMessageId := assistantMessageId l;
                               loop_textContent := loop_textContent l +:+ f;
                               buffer := buffer l |}, upd)
                  | None => None
                  end
              | None =>
                  Some ({| assistantMessageId := assistantMessageId l;
                           loop_textContent := loop_textContent l +:+ f;
                           buffer := buffer l |}, prev)
              end
              = Some ({| assistantMessageId := assistantMessageId l;
                         loop_textContent := loop_textContent l +:+ f;
                         buffer := buffer l |}, prev)) as ->.
      { destruct (assistantMessageId l) as [mid|] eqn:Ha; [| done].
        unfold applyText. by rewrite (Hl mid eq_refl). }
      rewrite IH by done.
      cbn [assistantMessageId loop_textContent buffer].
      by rewrite concat_cons, append_assoc.
Qed.

Lemma deltas_without_message_accumulate_witness :
  loop_events
    [JObj [("type", JStr "text-delta"); ("delta", JStr "Hel")];
     JObj [("type", JStr "text-delta"); ("delta", JStr "lo")]]
    loop0 [userMessage "u1" ["hi"]]
  = (Some {| assistantMessageId := assistantMessageId loop0;
             loop_textContent :=
               loop_textContent loop0 +:+ Text.concat ["Hel"; "lo"];
             buffer := buffer loop0 |}, [userMessage "u1" ["hi"]]).
Proof.
  apply (deltas_without_message_accumulate loop0
           [JObj [("type", JStr "text-delta"); ("delta", JStr "Hel")];
            JObj [("type", JStr "text-delta"); ("delta", JStr "lo")]]
           ["Hel"; "lo"]).
  - repeat (apply List.Forall2_cons; [by_computation |]).
    apply List.Forall2_nil.
  - intros mid Hm. discriminate Hm.
Defined.

(** ** The mirrors of remote streams *)

Lemma remote_chunk_delta (id f : string) (data chunk : json) (st : State) :
  has_chunk data chunk → is_text_delta chunk f →
  (f = "" → truthy_opt (get "done" data) = false) →
  remote_chunk id data st
  = if String.eqb f "" then st
    else
      match remoteStreams st !! id with
      | Some stream =>
          let text := textContent stream +:+ f in
          let st1 :=
            set_remoteStreams
              (<[id := {| messageId := messageId stream;
                          textContent := text |}]> (remoteStreams st)) st in
          match applyText (messageId stream) text (messages st) with
          | Some upd => setMessagesStore upd st1
          | None => st1
          end
      | None => st
      end.
Proof.
  intros (body & Hb & Hp) Hd Hdone. unfold remote_chunk.
  rewrite Hb, Hp, (text_delta_not_start _ _ Hd).
  pose proof Hd as [Ht Hg]. rewrite Ht, (truthy_string_get _ _ _ Hg).
  rewrite (field_is_other _ _ _ "finish" Ht) by done.
  assert (chunk ≠ JNull) as Hnn by (by intros ->).
  destruct (String.eqb_spec f "") as [-> | Hf].
  - rewrite Hdone by done. by destruct chunk.
  - by destruct chunk.
Qed.

Lemma handleServerMessage_delta (id raw f : string) (st : State) :
  is_delta_frame id raw f → id ∉ localRequestIds st →
  handleServerMessage raw st
  = if String.eqb f "" then st
    else
      match remoteStreams st !! id with
      | Some stream =>
          let text := textContent stream +:+ f in
          let st1 :=
            set_remoteStreams
              (<[id := {| messageId := messageId stream;
                          textContent := text |}]> (remoteStreams st)) st in
          match applyText (messageId stream) text (messages st) with
          | Some upd => setMessagesStore upd st1
          | None => st1
          end
      | None => st
      end.
Proof.
  intros (data & chunk & Hr & Hc & Hd & Hdone) Hid.
  rewrite (handleServerMessage_response _ _ _ _ Hr).
  rewrite bool_decide_eq_false_2 by done.
  by apply (remote_chunk_delta id f data chunk).
Qed.




(** Once the message of a remote stream is no longer in the list, after a
    clear or a snapshot for instance, the text-delta frames of the stream
    change no message; the mirror goes on adding their fragments to its
    text. *)
Theorem remote_deltas_for_missing_message
    (id mid : string) (raws fs : list string) (t : string) (st : State) :
  Forall2 (is_delta_frame id) raws fs →
  id ∉ localRequestIds st →
  remoteStreams st !! id = Some {| messageId := mid; textContent := t |} →
  findIndex mid (messages st) = NotFound →
  handleServerMessages raws st
  = set_remoteStreams
      (<[id := {| messageId := mid;
                  textContent := t +:+ Text.concat fs |}]>
         (remoteStreams st)) st.
Proof.
  intros H. revert t st.
  induction H as [|raw f raws fs Hd _ IH]; intros t st Hid Hrs Hnf.
  - change (Text.concat []) with "". rewrite append_nil_r.
    rewrite insert_id by done. by destruct st.
  - unfold handleServerMessages in *. cbn [foldl].
    rewrite (handleServerMessage_delta id raw f st Hd Hid).
    destruct (String.eqb_spec f "") as [-> | Hf].
    + rewrite concat_cons, append_nil_l. by apply IH.
    + rewrite Hrs. cbn [messageId textContent]. cbn zeta.
      unfold applyText. rewrite Hnf.
      rewrite concat_cons, <- append_assoc.
      rewrite (IH (t +:+ f));
        [| done | cbn [remoteStreams setMessagesStore set_remoteStreams];
                  by rewrite lookup_insert_eq | done].
      cbn [remoteStreams setMessagesStore set_remoteStreams].
      rewrite insert_insert_eq. by destruct st.
Qed.

Lemma remote_deltas_for_missing_message_witness :
  let st :=
    set_remoteStreams
      {["r9" := {| messageId := "a1"; textContent := "Hel" |}]}
      (initial agent0) in
  handleServerMessages
    [wire "{'type':'chat-response','id':'r9','body':'{\'type\':\'text-delta\',\'delta\':\'lo\'}'}"]
    st
  = set_remoteStreams
      (<["r9" := {| messageId := "a1";
                    textContent := "Hel" +:+ Text.concat ["lo"] |}]>
         (remoteStreams st)) st.
Proof.
  intros st.
  apply (remote_deltas_for_missing_message "r9" "a1").
  - apply List.Forall2_cons; [| apply List.Forall2_nil].
    exists (JObj [("type", JStr "chat-response"); ("id", JStr "r9");
                  ("body", JStr (wire "{'type':'text-delta','delta':'lo'}"))]),
           (JObj [("type", JStr "text-delta"); ("delta", JStr "lo")]).
    split; [by_computation |]. split.
    { eexists. split; [vm_compute; reflexivity |]. vm_compute. reflexivity. }
    split; [by_computation | done].
  - vm_compute. set_solver.
  - vm_compute. reflexivity.
  - vm_compute. reflexivity.
Defined.

(** A finish event under an identifier that is not locally owned releases
    the mirror of that stream and changes no message, and the text-delta
    frames that still arrive under the identifier are ignored. *)
Theorem finish_releases_remote_stream
    (id raw : string) (data chunk : json) (raws fs : list string)
    (st : State) :
  is_chat_response raw data id → id ∉ localRequestIds st →
  has_chunk data chunk → field_is "type" chunk "finish" = true →
  Forall2 (is_delta_frame id) raws fs →
  handleServerMessages (raw :: raws) st
  = set_remoteStreams (delete id (remoteStreams st)) st.
Proof.
  intros Hr Hid (body & Hb & Hp) Ht Hd.
  unfold handleServerMessages. cbn [foldl].
  rewrite (handleServerMessage_response _ _ _ _ Hr).
  rewrite bool_decide_eq_false_2 by done.
  assert (remote_chunk id data st
          = set_remoteStreams (delete id (remoteStreams st)) st) as ->.
  { unfold remote_chunk. rewrite Hb, Hp.
    rewrite (field_is_other _ _ _ "start" Ht) by done.
    rewrite (field_is_other _ _ _ "text-delta" Ht) by done.
    rewrite Ht. by destruct chunk. }
  set (st' := set_remoteStreams (delete id (remoteStreams st)) st).
  assert (id ∉ localRequestIds st') as Hid' by done.
  assert (remoteStreams st' !! id = None) as Hrs by apply lookup_delete_eq.
  clearbody st'. clear -Hd Hid' Hrs.
  induction Hd as [|r f raws fs Hd _ IH]; [done |].
  cbn [foldl]. rewrite (handleServerMessage_delta id r f st' Hd Hid'), Hrs.
  by destruct (String.eqb f "").
Qed.

Lemma finish_releases_remote_stream_witness :
  let st :=
    set_remoteStreams
      {["r9" := {| messageId := "a1"; textContent := "Hel" |}]}
      (setMessagesStore [streamed "a1" "Hel"] (initial agent0)) in
  handleServerMessages
    [wire "{'type':'chat-response','id':'r9','body':'{\'type\':\'finish\'}'}";
     wire "{'type':'chat-response','id':'r9','body':'{\'type\':\'text-delta\',\'delta\':\'lo\'}'}"]
    st
  = set_remoteStreams (delete "r9" (remoteStreams st)) st.
Proof.
  intros st.
  apply (finish_releases_remote_stream "r9" _
           (JObj [("type", JStr "chat-response"); ("id", JStr "r9");
                  ("body", JStr (wire "{'type':'finish'}"))])
           (JObj [("type", JStr "finish")]) _ ["lo"]).
  - by_computation.
  - vm_compute. set_solver.
  - eexists. split; [vm_compute; reflexivity |]. vm_compute. reflexivity.
  - vm_compute. reflexivity.
  - apply List.Forall2_cons; [| apply List.Forall2_nil].
    exists (JObj [("type", JStr "chat-response"); ("id", JStr "r9");
                  ("body", JStr (wire "{'type':'text-delta','delta':'lo'}"))]),
           (JObj [("type", JStr "text-delta"); ("delta", JStr "lo")]).
    split; [by_computation |]. split.
    { eexists. split; [vm_compute; reflexivity |]. vm_compute. reflexivity. }
    split; [by_computation | done].
Defined.

(** The broadcast handler parses the body of a chat-response frame before
    it looks at the [done] flag, so a frame whose body is absent or is not
    JSON, the empty body of a closing frame included, is ignored as a
    whole: the mirror of the stream stays registered. *)
Theorem frame_without_chunk_keeps_remote_stream
    (raw : string) (data : json) (id : string) (st : State) :
  is_chat_response raw data id →
  (get "body" data = None
   ∨ ∃ body, get "body" data = Some (JStr body) ∧ JSON_parse body = None) →
  handleServerMessage raw st = st.
Proof.
  intros Hr Hb. rewrite (handleServerMessage_response _ _ _ _ Hr).
  destruct (bool_decide _); [done |].
  unfold remote_chunk. destruct Hb as [-> | (body & -> & ->)]; done.
Qed.

Lemma frame_without_chunk_keeps_remote_stream_witness :
  let st :=
    set_remoteStreams
      {["r9" := {| messageId := "a1"; textContent := "Hel" |}]}
      (setMessagesStore [streamed "a1" "Hel"] (initial agent0)) in
  handleServerMessage
    (wire "{'type':'chat-response','id':'r9','body':'','done':true}") st
  = st.
Proof.
  intros st.
  apply (frame_without_chunk_keeps_remote_stream _
           (JObj [("type", JStr "chat-response"); ("id", JStr "r9");
                  ("body", JStr ""); ("done", JBool true)]) "r9").
  - by_computation.
  - right. exists "". split; vm_compute; reflexivity.
Defined.

(** ** An exchange from the request to the closing frame *)

Lemma in_flight_fed (n : nat) (e : Exchange) (ks : list nat) (st : State)
    (cs : list string) (l : Loop) (p : list json) :
  in_flight n e ks st →
  in_flight n (fed cs l e) ks
    (set_exchange n (fed cs l e) (setMessagesStore p st)).
Proof.
  intros (Hl & Hnd & Hn & Hlt & H & Hc & Hrd & Hu & Hid & Hks).
  assert (ids (set_exchange n (fed cs l e) (setMessagesStore p st)) = ids st)
    as Hids by (by apply (ids_update n e (fed cs l e) (setMessagesStore p st))).
  unfold in_flight. rewrite Hids.
  split; [done |]. split; [done |]. split; [done |]. split.
  { intros m Hm. cbn. rewrite length_insert. by apply Hlt. }
  split; [by eapply lookup_set_exchange |].
  split; [done |]. split; [by exists l |]. done.
Qed.

Lemma deliver_body_frame (n : nat) (e : Exchange) (ks : list nat)
    (raw b : string) (l : Loop) (st : State) :
  in_flight n e ks st → x_reader e = Reading l →
  is_body_frame (x_id e) raw b →
  deliver raw st = fst (controller_enqueue n (sse_frame b) st).
Proof.
  intros Hf Hrd (data & Hr & Herr & Hdone & Hb & Hk).
  rewrite (in_flight_deliver n e ks raw data st Hf Hr).
  destruct Hf as (_ & _ & _ & _ & H & Hc & _ & _ & _ & _).
  rewrite (onMessage_matching n e raw data st H Hr), Herr, Hdone.
  unfold enqueue_body. rewrite Hb, Hk.
  pose proof (enqueue_readable n e (sse_frame b) st H Hc) as Hs.
  destruct (controller_enqueue n (sse_frame b) st) as [st1 thrown].
  cbn in Hs. by subst thrown.
Qed.

Lemma fed_fed (cs cs' : list string) (l l' : Loop) (e : Exchange) :
  fed cs' l' (fed cs l e) = fed (cs ++ cs') l' e.
Proof. unfold fed. cbn. by rewrite app_assoc. Qed.

(** Frames delivered one by one to an exchange in flight run the loop of
    [sendMessage] over their chunks. *)
Lemma deliver_body_frames (n : nat) (ks : list nat) (raws bodies : list string)
    (id : string) :
  Forall2 (is_body_frame id) raws bodies →
  ∀ (e : Exchange) (l l' : Loop) (prev' : list json) (st : State),
    in_flight n e ks st → x_id e = id → x_reader e = Reading l →
    loop_reads (map sse_frame bodies) l (messages st) = (Some l', prev') →
    run st (Deliver <$> raws)
    = set_exchange n (fed (map sse_frame bodies) l' e)
        (setMessagesStore prev' st).
Proof.
  intros H. induction H as [|raw b raws bodies Hb _ IH];
    intros e l l' prev' st Hf Hid Hrd Hloop.
  - cbn in Hloop. injection Hloop as <- <-.
    destruct Hf as (_ & _ & _ & _ & H & _).
    unfold fed. cbn [map run foldl fmap list_fmap]. rewrite app_nil_r.
    assert (with_reader (Reading l) (with_delivered (x_delivered e) e) = e)
      as -> by (destruct e; cbn in *; by subst).
    unfold set_exchange. rewrite list_insert_id by done. by destruct st.
  - cbn [map fmap list_fmap]. unfold run. cbn [foldl step].
    subst id.
    rewrite (deliver_body_frame n e ks raw b l st Hf Hrd Hb).
    pose proof Hf as (_ & _ & _ & _ & H & Hc & _ & _ & _ & _).
    unfold controller_enqueue. rewrite H, Hc, Hrd.
    cbn [map loop_reads] in Hloop.
    destruct (loop_read (sse_frame b) l (messages st)) as [[l1|] p1];
      [| done].
    cbn [fst].
    change (with_reader (Reading l1)
              (with_delivered (x_delivered e ++ [sse_frame b]) e))
      with (fed [sse_frame b] l1 e).
    pose proof (in_flight_fed n e ks st [sse_frame b] l1 p1 Hf) as Hf1.
    unfold run in IH.
    rewrite (IH (fed [sse_frame b] l1 e) l1 l' prev' _ Hf1 eq_refl eq_refl
               Hloop).
    rewrite fed_fed. unfold set_exchange. cbn.
    by rewrite list_insert_insert_eq.
Qed.

(** Body frames delivered one by one to an exchange in flight have the
    effect of the loop of [sendMessage] reading their chunks: the message
    list is the one the loop computes, the reader is left where the loop
    is, every chunk is recorded as delivered, and nothing else changes. *)
Theorem frames_feed_loop (n : nat) (e : Exchange) (ks : list nat)
    (raws bodies : list string) (l l' : Loop) (prev' : list json)
    (st : State) :
  in_flight n e ks st → x_reader e = Reading l →
  Forall2 (is_body_frame (x_id e)) raws bodies →
  loop_reads (map sse_frame bodies) l (messages st) = (Some l', prev') →
  run st (Deliver <$> raws)
  = set_exchange n (fed (map sse_frame bodies) l' e)
      (setMessagesStore prev' st).
Proof.
  intros Hf Hrd Hb Hloop.
  by apply (deliver_body_frames n ks raws bodies (x_id e) Hb e l).
Qed.

Lemma frames_feed_loop_witness :
  let st := sendMessage "u1" "x1" ["hi"] (initial agent0) in
  let bodies := [wire "{'type':'start','messageId':'a1'}";
                 wire "{'type':'text-delta','delta':'Hel'}"] in
  run st
    (Deliver <$>
       [wire "{'type':'chat-response','id':'x1','body':'{\'type\':\'start\',\'messageId\':\'a1\'}'}";
        wire "{'type':'chat-response','id':'x1','body':'{\'type\':\'text-delta\',\'delta\':\'Hel\'}','done':false}"])
  = set_exchange 0
      (fed (map sse_frame bodies)
         {| assistantMessageId := Some "a1"; loop_textContent := "Hel";
            buffer := "" |}
         (new_exchange "x1" None))
      (setMessagesStore [userMessage "u1" ["hi"]; streamed "a1" "Hel"] st).
Proof.
  intros st bodies.
  apply (frames_feed_loop 0 (new_exchange "x1" None) [0] _ bodies loop0).
  - split_ands; try (vm_compute; reflexivity).
    + apply NoDup_singleton.
    + by left.
    + intros m ->%list_elem_of_singleton. cbn. lia.
    + by exists loop0.
    + intros m ->%list_elem_of_singleton. done.
  - reflexivity.
  - apply List.Forall2_cons.
    { exists (JObj [("type", JStr "chat-response"); ("id", JStr "x1");
                    ("body",
                     JStr (wire "{'type':'start','messageId':'a1'}"))]).
      split; [by_computation |]. by_computation. }
    apply List.Forall2_cons; [| apply List.Forall2_nil].
    exists (JObj [("type", JStr "chat-response"); ("id", JStr "x1");
                  ("body",
                   JStr (wire "{'type':'text-delta','delta':'Hel'}"));
                  ("done", JBool false)]).
    split; [by_computation |]. by_computation.
  - vm_compute. reflexivity.
Defined.

Lemma onMessage_done_frame (n : nat) (e : Exchange) (l : Loop)
    (raw : string) (data : json) (st : State) :
  exchanges st !! n = Some e → x_controller e = Readable →
  x_reader e = Reading l →
  is_chat_response raw data (x_id e) →
  truthy_opt (get "error" data) = false →
  truthy_opt (get "done" data) = true →
  no_body data →
  let st' := onMessage n raw st in
  exchanges st' = <[n := finished e]> (exchanges st)
  ∧ status st' = StatusReady
  ∧ error st' = error st
  ∧ messages st' = messages st
  ∧ remoteStreams st' = remoteStreams st
  ∧ listeners st' = filter (λ l, l ≠ OnMessage n) (listeners st)
  ∧ localRequestIds st' = localRequestIds st ∖ {[x_id e]}
  ∧ sent st' = sent st ∧ uncaught st' = uncaught st.
Proof.
  intros H Hc Hrd Hr Herr Hdone Hnb st'. subst st'.
  rewrite (onMessage_matching n e raw data st H Hr), Herr, Hdone.
  assert (enqueue_body n data st = (st, false)) as ->.
  { unfold enqueue_body, no_body in *.
    destruct (get "body" data) as [[| | | body | |]|]; try done.
    by rewrite Hnb. }
  unfold controller_close. rewrite H, Hc, Hrd.
  unfold abortController_abort.
  cbn [setStatus flush removeEventListener set_listeners set_exchange
       set_exchanges exchanges].
  rewrite list_lookup_insert_eq by by eapply lookup_lt_Some.
  cbn. rewrite list_insert_insert_eq. done.
Qed.

(** The closing frame of an exchange in flight, a done frame without text,
    ends the exchange and nothing else: its stream is closed and its reader
    leaves the loop, its listener and no other is removed, its identifier
    is released, the status is ["ready"]; the message list, the error, the
    mirrors of remote streams and the frames sent are as before, and no
    listener throws. *)
Theorem done_frame_completes_exchange
    (n : nat) (e : Exchange) (ks : list nat) (raw : string) (data : json)
    (st : State) :
  in_flight n e ks st →
  is_chat_response raw data (x_id e) →
  truthy_opt (get "error" data) = false →
  truthy_opt (get "done" data) = true →
  no_body data →
  let st' := deliver raw st in
  exchanges st' = <[n := finished e]> (exchanges st)
  ∧ status st' = StatusReady
  ∧ error st' = error st
  ∧ messages st' = messages st
  ∧ remoteStreams st' = remoteStreams st
  ∧ listeners st' = filter (λ l, l ≠ OnMessage n) (listeners st)
  ∧ localRequestIds st' = localRequestIds st ∖ {[x_id e]}
  ∧ sent st' = sent st ∧ uncaught st' = uncaught st.
Proof.
  intros Hf Hr Herr Hdone Hnb st'. subst st'.
  rewrite (in_flight_deliver n e ks raw data st Hf Hr).
  destruct Hf as (_ & _ & _ & _ & H & Hc & (l & Hrd) & _).
  by apply (onMessage_done_frame n e l raw data).
Qed.

Lemma done_frame_completes_exchange_witness :
  let st := sendMessage "u1" "x1" ["hi"] (initial agent0) in
  let raw := wire "{'type':'chat-response','id':'x1','body':'','done':true}" in
  let e := new_exchange "x1" None in
  let st' := deliver raw st in
  exchanges st' = <[0 := finished e]> (exchanges st)
  ∧ status st' = StatusReady
  ∧ error st' = error st
  ∧ messages st' = messages st
  ∧ remoteStreams st' = remoteStreams st
  ∧ listeners st' = filter (λ l, l ≠ OnMessage 0) (listeners st)
  ∧ localRequestIds st' = localRequestIds st ∖ {[x_id e]}
  ∧ sent st' = sent st ∧ uncaught st' = uncaught st.
Proof.
  intros st raw e.
  apply (done_frame_completes_exchange 0 e [0] raw
           (JObj [("type", JStr "chat-response"); ("id", JStr "x1");
                  ("body", JStr ""); ("done", JBool true)]) st).
  - split_ands; try (vm_compute; reflexivity).
    + apply NoDup_singleton.
    + by left.
    + intros m ->%list_elem_of_singleton. cbn. lia.
    + by exists loop0.
    + intros m ->%list_elem_of_singleton. done.
  - by_computation.
  - reflexivity.
  - reflexivity.
  - reflexivity.
Defined.





(** ** The states the client can reach *)

Lemma well_formed_same (st st' : State) :
  listeners st' = listeners st → exchanges st' = exchanges st →
  sent st' = sent st →
  well_formed st → well_formed st'.
Proof.
  unfold well_formed. intros -> -> ->. done.
Qed.

Lemma filter_listeners (n : nat) (ks : list nat) :
  filter (λ l, l ≠ OnMessage n)
    (HandleServerMessage :: (OnMessage <$> ks))
  = HandleServerMessage :: (OnMessage <$> filter (λ k, k ≠ n) ks).
Proof.
  rewrite filter_cons_True by done. f_equal.
  induction ks as [|k ks IH]; [done |].
  cbn [fmap list_fmap]. destruct (decide (k = n)) as [-> | Hne].
  - rewrite filter_cons_False by naive_solver.
    by rewrite (filter_cons_False _ n) by naive_solver.
  - rewrite filter_cons_True by naive_solver.
    rewrite (filter_cons_True _ k) by done.
    cbn [fmap list_fmap]. by rewrite <- IH.
Qed.

Lemma well_formed_update (n : nat) (e0 e1 : Exchange) (st st' : State) :
  exchanges st !! n = Some e0 →
  exchanges st' = <[n := e1]> (exchanges st) →
  sent st' = sent st →
  x_signal e1 = x_signal e0 →
  (listeners st' = listeners st
   ∨ listeners st' = filter (λ l, l ≠ OnMessage n) (listeners st)
     ∧ ∀ l, x_reader e1 ≠ Reading l) →
  (∀ l, x_reader e1 = Reading l →
        (∃ l0, x_reader e0 = Reading l0)
        ∧ x_controller e1 = Readable ∧ x_unread e1 = []) →
  well_formed st → well_formed st'.
Proof.
  intros H0 Hex Hsent Hsig Hls Hrd ((ks & Hl & Hnd & Hlt) & Hs & Hr & Hc).
  unfold well_formed. rewrite Hex, Hsent.
  split; [| split; [| split; [| done]]].
  - destruct Hls as [-> | [-> _]].
    + exists ks. rewrite length_insert. done.
    + exists (filter (λ k, k ≠ n) ks). rewrite Hl, filter_listeners.
      split; [done |]. split; [by apply NoDup_filter |].
      intros m [_ Hm]%list_elem_of_filter. rewrite length_insert.
      by apply Hlt.
  - intros k e He. destruct (decide (k = n)) as [-> | Hne].
    + rewrite list_lookup_insert_eq in He by by eapply lookup_lt_Some.
      injection He as <-. rewrite Hsig. by eapply Hs.
    + rewrite list_lookup_insert_ne in He by done. by eapply Hs.
  - intros k e l He Hrl. destruct (decide (k = n)) as [-> | Hne].
    + rewrite list_lookup_insert_eq in He by by eapply lookup_lt_Some.
      injection He as <-.
      destruct (Hrd l Hrl) as ((l0 & Hr0) & Hc1 & Hu1).
      split; [done |]. split; [done |].
      destruct Hls as [-> | [_ Hno]]; [| by destruct (Hno l)].
      by destruct (Hr n e0 l0 H0 Hr0) as (_ & _ & ?).
    + rewrite list_lookup_insert_ne in He by done.
      destruct (Hr k e l He Hrl) as (? & ? & Hin).
      split; [done |]. split; [done |].
      destruct Hls as [-> | [-> _]]; [done |].
      apply list_elem_of_filter. split; [congruence | done].
Qed.

Lemma well_formed_enqueue (n : nat) (c : string) (st : State) :
  well_formed st → well_formed (fst (controller_enqueue n c st)).
Proof.
  intros Hw. unfold controller_enqueue.
  destruct (exchanges st !! n) as [e0|] eqn:H0; [| done].
  destruct (x_controller e0) eqn:Hc; try done.
  pose proof Hw as (_ & _ & Hr & _).
  destruct (x_reader e0) as [l| |] eqn:Hrd;
    [destruct (loop_read c l (messages st)) as [[l'|] p] | ..];
    cbn [fst];
    (eapply (well_formed_update n e0);
     [exact H0 | reflexivity | reflexivity | reflexivity | by left | | exact Hw]);
    cbn; rewrite ?Hrd; try done.
  intros l1 _. destruct (Hr n e0 l H0 Hrd) as (_ & Hu & _).
  split; [by exists l | done].
Qed.

Lemma well_formed_close (n : nat) (st : State) :
  well_formed st → well_formed (controller_close n st).
Proof.
  intros Hw. unfold controller_close.
  destruct (exchanges st !! n) as [e0|] eqn:H0; [| done].
  destruct (x_controller e0) eqn:Hc; try done.
  destruct (x_reader e0) as [l| |] eqn:Hrd.
  - eapply (well_formed_update n e0);
      [exact H0 | reflexivity | reflexivity | reflexivity | | | exact Hw];
      cbn; [by right | done].
  - destruct (x_unread e0);
      (eapply (well_formed_update n e0);
       [exact H0 | reflexivity | reflexivity | reflexivity | | | exact Hw]);
      cbn; rewrite ?Hrd; try done; try (by right); by left.
  - destruct (x_unread e0);
      (eapply (well_formed_update n e0);
       [exact H0 | reflexivity | reflexivity | reflexivity | | | exact Hw]);
      cbn; rewrite ?Hrd; try done; try (by right); by left.
Qed.

Lemma well_formed_error (n : nat) (msg : string) (st : State) :
  well_formed st → well_formed (controller_error n msg st).
Proof.
  intros Hw. unfold controller_error.
  destruct (exchanges st !! n) as [e0|] eqn:H0; [| done].
  destruct (x_controller e0) eqn:Hc; try done.
  destruct (x_reader e0) as [l| |] eqn:Hrd;
    (eapply (well_formed_update n e0);
     [exact H0 | reflexivity | reflexivity | reflexivity | by left | | exact Hw]);
    cbn; rewrite ?Hrd; done.
Qed.

Lemma well_formed_abort (n : nat) (st : State) :
  well_formed st → well_formed (abortController_abort n st).
Proof.
  intros Hw. unfold abortController_abort.
  destruct (exchanges st !! n) as [e0|] eqn:H0; [| done].
  eapply (well_formed_update n e0);
    [exact H0 | reflexivity | reflexivity | reflexivity | by left | | exact Hw].
  cbn. intros l Hrd. pose proof Hw as (_ & _ & Hr & _).
  destruct (Hr n e0 l H0 Hrd) as (? & ? & _). split; [by exists l | done].
Qed.

Lemma well_formed_delete (id : string) (st : State) :
  well_formed st → well_formed (localRequestIds_delete id st).
Proof. by apply well_formed_same. Qed.

Lemma well_formed_throw (st : State) :
  well_formed st → well_formed (throw st).
Proof. by apply well_formed_same. Qed.

Lemma well_formed_enqueue_body (n : nat) (data : json) (st : State) :
  well_formed st → well_formed (fst (enqueue_body n data st)).
Proof.
  intros Hw. unfold enqueue_body.
  destruct (get "body" data) as [[| | | body | |]|]; try done.
  destruct (blank body); [done |]. by apply well_formed_enqueue.
Qed.

Lemma well_formed_onMessage_frame (n : nat) (id : string) (data : json)
    (st : State) :
  well_formed st → well_formed (onMessage_frame n id data st).
Proof.
  intros Hw. unfold onMessage_frame.
  destruct (_ && _); [| done].
  destruct (truthy_opt (get "error" data)).
  - by apply well_formed_delete, well_formed_abort, well_formed_error.
  - pose proof (well_formed_enqueue_body n data st Hw) as Hw1.
    destruct (enqueue_body n data st) as [st1 [|]]; cbn [fst] in Hw1.
    + by apply well_formed_throw.
    + destruct (truthy_opt (get "done" data)); [| done].
      by apply well_formed_delete, well_formed_abort, well_formed_close.
Qed.

Lemma well_formed_onMessage (n : nat) (raw : string) (st : State) :
  well_formed st → well_formed (onMessage n raw st).
Proof.
  intros Hw. unfold onMessage.
  destruct (exchanges st !! n) as [e|]; [| done].
  destruct (JSON_parse raw) as [data|]; [| done].
  destruct data; try by apply well_formed_onMessage_frame.
  by apply well_formed_throw.
Qed.

Lemma handleServerMessage_frame (raw : string) (st : State) :
  listeners (handleServerMessage raw st) = listeners st
  ∧ exchanges (handleServerMessage raw st) = exchanges st
  ∧ sent (handleServerMessage raw st) = sent st.
Proof.
  unfold handleServerMessage, remote_chunk.
  repeat case_match; done.
Qed.

Lemma well_formed_handleServerMessage (raw : string) (st : State) :
  well_formed st → well_formed (handleServerMessage raw st).
Proof.
  destruct (handleServerMessage_frame raw st) as (? & ? & ?).
  by apply well_formed_same.
Qed.

Lemma well_formed_deliver (raw : string) (st : State) :
  well_formed st → well_formed (deliver raw st).
Proof.
  unfold deliver.
  assert (∀ ls s, well_formed s → well_formed (foldl (dispatch raw) s ls))
    as Hgen; [| apply Hgen].
  induction ls as [|l ls IH]; intros s Hw; [done |].
  cbn [foldl]. apply IH. unfold dispatch.
  destruct (bool_decide (l ∈ listeners s)); [| done].
  destruct l as [|n]; cbn [invoke].
  - by apply well_formed_handleServerMessage.
  - by apply well_formed_onMessage.
Qed.

Lemma well_formed_sendMessage (mid id : string) (parts : list string)
    (st : State) :
  well_formed st → well_formed (sendMessage mid id parts st).
Proof.
  intros ((ks & Hl & Hnd & Hlt) & Hs & Hr & Hc). unfold well_formed. cbn.
  split; [| split; [| split]].
  - exists (ks ++ [length (exchanges st)]). rewrite Hl, fmap_app.
    split; [done |]. split.
    + apply NoDup_app. split; [done |]. split; [| apply NoDup_singleton].
      intros m Hm ->%list_elem_of_singleton. specialize (Hlt _ Hm). lia.
    + intros m [Hm | ->%list_elem_of_singleton]%elem_of_app;
        rewrite length_app; cbn; [specialize (Hlt _ Hm) |]; lia.
  - intros k e [He | [_ He]]%lookup_app_Some; [by eapply Hs |].
    by apply list_lookup_singleton_Some in He as [_ <-].
  - intros k e l [He | [Hk He]]%lookup_app_Some Hrd.
    + destruct (Hr k e l He Hrd) as (? & ? & ?).
      split; [done |]. split; [done |]. apply elem_of_app. by left.
    + apply list_lookup_singleton_Some in He as [Hk' <-].
      split; [done |]. split; [done |]. apply elem_of_app. right.
      apply list_elem_of_singleton. f_equal. lia.
  - intros id' [Hin | Hin%list_elem_of_singleton]%elem_of_app;
      [by apply (Hc id') | done].
Qed.

Lemma cancel_without_signal (n : nat) (st : State) :
  well_formed st → cancel n st = st.
Proof.
  intros (_ & Hs & _). unfold cancel.
  destruct (exchanges st !! n) as [e|] eqn:He; [| done].
  by rewrite (Hs n e He).
Qed.

Lemma well_formed_step (st : State) (a : Action) :
  well_formed st → well_formed (step st a).
Proof.
  intros Hw. destruct a as [raw | mid id parts | n | m |]; cbn [step].
  - by apply well_formed_deliver.
  - by apply well_formed_sendMessage.
  - by rewrite cancel_without_signal.
  - destruct Hw as (Hl & Hs & Hr & Hc). unfold well_formed.
    split; [by destruct m |]. split; [by destruct m |].
    split; [by destruct m |].
    intros id [Hin | Hin%list_elem_of_singleton]%elem_of_app;
      [destruct m; by apply (Hc id) | done].
  - destruct Hw as (Hl & Hs & Hr & Hc). unfold well_formed.
    split; [done |]. split; [done |]. split; [done |].
    intros id [Hin | Hin%list_elem_of_singleton]%elem_of_app;
      [by apply (Hc id) | done].
Qed.

Lemma well_formed_run (acts : list Action) (st : State) :
  well_formed st → well_formed (run st acts).
Proof.
  revert st. induction acts as [|a acts IH]; intros st Hw; [done |].
  unfold run in *. cbn [foldl]. by apply IH, well_formed_step.
Qed.

Lemma well_formed_initial (a : AgentInfo) : well_formed (initial a).
Proof.
  unfold well_formed. cbn. split; [| split; [| split]]; try done.
  - exists []. split; [done |]. split; [apply NoDup_nil_2 |].
    intros m Hm. by apply elem_of_nil in Hm.
  - intros id Hin. by apply elem_of_nil in Hin.
Qed.

(** Whatever frames arrive and whatever the caller does through
    [sendMessage], [setMessages] and [clearHistory], the broadcast handler
    stays the first listener and every other listener is that of a
    distinct existing exchange; and an exchange whose reader is in its loop
    has a readable stream with no chunk waiting and its listener
    registered: a frame for it is read by the loop at once. *)
Theorem reachable_listeners_and_readers (a : AgentInfo) (acts : list Action) :
  let st := run (initial a) acts in
  (∃ ks, listeners st = HandleServerMessage :: (OnMessage <$> ks)
         ∧ NoDup ks ∧ ∀ m, m ∈ ks → m < length (exchanges st))
  ∧ (∀ k e l, exchanges st !! k = Some e → x_reader e = Reading l →
       x_controller e = Readable ∧ x_unread e = []
       ∧ OnMessage k ∈ listeners st).
Proof.
  intros st.
  destruct (well_formed_run acts (initial a) (well_formed_initial a))
    as (H1 & _ & H3 & _).
  done.
Qed.

(** [sendMessage] passes no signal to [aiFetch], so the abort listener of
    an exchange is never registered: through the operations the client
    exposes nothing can be cancelled, and no cancel frame is ever sent. *)
Theorem exposed_operations_never_cancel
    (a : AgentInfo) (acts : list Action) (n : nat) (id : string) :
  cancel n (run (initial a) acts) = run (initial a) acts
  ∧ ChatRequestCancel id ∉ sent (run (initial a) acts).
Proof.
  pose proof (well_formed_run acts (initial a) (well_formed_initial a))
    as Hw.
  split; [by apply cancel_without_signal |].
  by destruct Hw as (_ & _ & _ & Hc).
Qed.

(** ** Frames and the other exchanges *)

Lemma others_kept_refl (n : nat) (st : State) : others_kept n st st.
Proof. by intros k Hk. Qed.

Lemma others_kept_trans (n : nat) (s1 s2 s3 : State) :
  others_kept n s1 s2 → others_kept n s2 s3 → others_kept n s1 s3.
Proof.
  intros H12 H23 k Hk. destruct (H12 k Hk) as [? ?].
  destruct (H23 k Hk) as [? ?]. split; [congruence | auto].
Qed.

Lemma others_kept_same (n : nat) (st st' : State) :
  exchanges st' = exchanges st → listeners st' = listeners st →
  others_kept n st st'.
Proof. intros He Hl k Hk. by rewrite He, Hl. Qed.

Lemma others_kept_update (n : nat) (e1 : Exchange) (st st' : State) :
  exchanges st' = <[n := e1]> (exchanges st) →
  (listeners st' = listeners st
   ∨ listeners st' = filter (λ l, l ≠ OnMessage n) (listeners st)) →
  others_kept n st st'.
Proof.
  intros He Hl k Hk. rewrite He.
  split; [by apply list_lookup_insert_ne |].
  destruct Hl as [-> | ->]; [done |]. intros Hin.
  apply list_elem_of_filter. split; [congruence | done].
Qed.

Lemma others_kept_enqueue (n : nat) (c : string) (st : State) :
  others_kept n st (fst (controller_enqueue n c st)).
Proof.
  unfold controller_enqueue.
  destruct (exchanges st !! n) as [e0|]; [| apply others_kept_refl].
  destruct (x_controller e0); try apply others_kept_refl.
  destruct (x_reader e0) as [l| |];
    [destruct (loop_read c l (messages st)) as [[l'|] p] | ..];
    cbn [fst]; (eapply others_kept_update; [reflexivity | by left]).
Qed.

Lemma others_kept_close (n : nat) (st : State) :
  others_kept n st (controller_close n st).
Proof.
  unfold controller_close.
  destruct (exchanges st !! n) as [e0|]; [| apply others_kept_refl].
  destruct (x_controller e0); try apply others_kept_refl.
  destruct (x_reader e0) as [l| |]; [| destruct (x_unread e0) ..];
    (eapply others_kept_update; [reflexivity |]);
    cbn; first [by left | by right].
Qed.

Lemma others_kept_error (n : nat) (msg : string) (st : State) :
  others_kept n st (controller_error n msg st).
Proof.
  unfold controller_error.
  destruct (exchanges st !! n) as [e0|]; [| apply others_kept_refl].
  destruct (x_controller e0); try apply others_kept_refl.
  destruct (x_reader e0) as [l| |];
    (eapply others_kept_update; [reflexivity | by left]).
Qed.

Lemma others_kept_abort (n : nat) (st : State) :
  others_kept n st (abortController_abort n st).
Proof.
  unfold abortController_abort.
  destruct (exchanges st !! n) as [e0|]; [| apply others_kept_refl].
  eapply others_kept_update; [reflexivity | by left].
Qed.

Lemma others_kept_enqueue_body (n : nat) (data : json) (st : State) :
  others_kept n st (fst (enqueue_body n data st)).
Proof.
  unfold enqueue_body.
  destruct (get "body" data) as [[| | | body | |]|];
    try apply others_kept_refl.
  destruct (blank body); [apply others_kept_refl |].
  apply others_kept_enqueue.
Qed.

Lemma others_kept_onMessage_frame (n : nat) (id : string) (data : json)
    (st : State) :
  others_kept n st (onMessage_frame n id data st).
Proof.
  unfold onMessage_frame.
  destruct (_ && _); [| apply others_kept_refl].
  destruct (truthy_opt (get "error" data)).
  - eapply others_kept_trans; [apply others_kept_error |].
    eapply others_kept_trans; [apply others_kept_abort |].
    by apply others_kept_same.
  - pose proof (others_kept_enqueue_body n data st) as H1.
    destruct (enqueue_body n data st) as [st1 [|]]; cbn [fst] in H1.
    + eapply others_kept_trans; [exact H1 |]. by apply others_kept_same.
    + destruct (truthy_opt (get "done" data)); [| done].
      eapply others_kept_trans; [exact H1 |].
      eapply others_kept_trans; [apply others_kept_close |].
      eapply others_kept_trans; [apply others_kept_abort |].
      by apply others_kept_same.
Qed.

Lemma others_kept_onMessage (n : nat) (raw : string) (st : State) :
  others_kept n st (onMessage n raw st).
Proof.
  unfold onMessage.
  destruct (exchanges st !! n) as [e|]; [| apply others_kept_refl].
  destruct (JSON_parse raw) as [data|]; [| apply others_kept_refl].
  destruct data; try apply others_kept_onMessage_frame.
  by apply others_kept_same.
Qed.

(** A chat-response frame does not cross exchanges: whatever it carries,
    an exchange with another identifier is exactly as before, stream,
    reader and flags, and keeps its listener. *)
Theorem frame_leaves_other_exchanges
    (raw : string) (data : json) (id : string) (st : State)
    (k : nat) (e : Exchange) :
  is_chat_response raw data id →
  exchanges st !! k = Some e → x_id e ≠ id →
  exchanges (deliver raw st) !! k = Some e
  ∧ (OnMessage k ∈ listeners st → OnMessage k ∈ listeners (deliver raw st)).
Proof.
  intros Hr He Hid. unfold deliver.
  assert (∀ ls s,
            exchanges s !! k = Some e
            ∧ (OnMessage k ∈ listeners st → OnMessage k ∈ listeners s) →
            exchanges (foldl (dispatch raw) s ls) !! k = Some e
            ∧ (OnMessage k ∈ listeners st →
               OnMessage k ∈ listeners (foldl (dispatch raw) s ls)))
    as Hgen; [| by apply Hgen].
  induction ls as [|l ls IH]; intros s [Hs Hl]; [done |].
  cbn [foldl]. apply IH. unfold dispatch.
  destruct (bool_decide (l ∈ listeners s)); [| done].
  destruct l as [|m]; cbn [invoke].
  - destruct (handleServerMessage_frame raw s) as (-> & -> & _). done.
  - destruct (decide (m = k)) as [-> | Hne].
    + rewrite (onMessage_other_id k raw data id); [done | done |].
      unfold ids. rewrite list_lookup_fmap, Hs. cbn. congruence.
    + destruct (others_kept_onMessage m raw s k) as [-> Hin];
        [congruence |]. split; [done | auto].
Qed.

Lemma frame_leaves_other_exchanges_witness :
  let st := sendMessage "u2" "x2" ["more"]
              (sendMessage "u1" "x1" ["hi"] (initial agent0)) in
  let raw := wire "{'type':'chat-response','id':'x1','body':'','done':true}" in
  exchanges (deliver raw st) !! 1 = Some (new_exchange "x2" None)
  ∧ (OnMessage 1 ∈ listeners st → OnMessage 1 ∈ listeners (deliver raw st)).
Proof.
  intros st raw.
  apply (frame_leaves_other_exchanges raw
           (JObj [("type", JStr "chat-response"); ("id", JStr "x1");
                  ("body", JStr ""); ("done", JBool true)]) "x1" st 1).
  - by_computation.
  - reflexivity.
  - done.
Defined.

Lemma listeners_enqueue (n : nat) (c : string) (st : State) :
  listeners (fst (controller_enqueue n c st)) = listeners st.
Proof.
  unfold controller_enqueue.
  destruct (exchanges st !! n) as [e0|]; [| done].
  destruct (x_controller e0); try done.
  destruct (x_reader e0) as [l| |]; try done.
  by destruct (loop_read c l (messages st)) as [[l'|] p].
Qed.

(** A closing frame that still carries text acts as the text frame
    followed by the closing frame: the text is enqueued and read by the
    loop before the stream is closed. *)
Theorem done_frame_with_text_is_text_then_close
    (n : nat) (e : Exchange) (ks : list nat) (st : State)
    (raw raw1 raw2 b : string) (data data2 : json) :
  in_flight n e ks st →
  is_chat_response raw data (x_id e) →
  truthy_opt (get "error" data) = false →
  truthy_opt (get "done" data) = true →
  get "body" data = Some (JStr b) → blank b = false →
  is_body_frame (x_id e) raw1 b →
  is_chat_response raw2 data2 (x_id e) →
  truthy_opt (get "error" data2) = false →
  truthy_opt (get "done" data2) = true →
  no_body data2 →
  deliver raw st = deliver raw2 (deliver raw1 st).
Proof.
  intros Hf Hr Herr Hdone Hb Hk Hr1 Hr2 Herr2 Hdone2 Hnb2.
  pose proof Hf as (Hl & Hnd & Hn & Hlt & H & Hc & (l & Hrd) & Hu & Hid & Hks).
  rewrite (deliver_body_frame n e ks raw1 b l st Hf Hrd Hr1).
  rewrite (in_flight_deliver n e ks raw data st Hf Hr).
  rewrite (onMessage_matching n e raw data st H Hr), Herr, Hdone.
  unfold enqueue_body at 1. rewrite Hb, Hk.
  pose proof (enqueue_readable n e (sse_frame b) st H Hc) as Hs.
  pose proof (listeners_enqueue n (sse_frame b) st) as Hl1.
  pose proof (localRequestIds_enqueue n (sse_frame b) st) as Hid1.
  pose proof (ids_enqueue n (sse_frame b) st) as Hids1.
  destruct (controller_enqueue n (sse_frame b) st) as [st1 thrown].
  cbn [fst snd] in *. subst thrown.
  assert (∃ e1, exchanges st1 !! n = Some e1 ∧ x_id e1 = x_id e)
    as (e1 & H1 & He1).
  { assert (ids st1 !! n = Some (x_id e)) as Hi.
    { rewrite Hids1. unfold ids. by rewrite list_lookup_fmap, H. }
    unfold ids in Hi. rewrite list_lookup_fmap in Hi.
    destruct (exchanges st1 !! n) as [e1|]; [| done].
    exists e1. split; [done |]. by injection Hi. }
  rewrite <- He1 in Hr2.
  rewrite (deliver_single raw2 data2 (x_id e1) ks n st1 Hr2);
    [| congruence | done | done | rewrite Hid1, He1; done
     | rewrite Hids1, He1; done].
  rewrite (onMessage_matching n e1 raw2 data2 st1 H1 Hr2), Herr2, Hdone2.
  assert (enqueue_body n data2 st1 = (st1, false)) as ->.
  { unfold enqueue_body, no_body in *.
    destruct (get "body" data2) as [[| | | body | |]|]; try done.
    by rewrite Hnb2. }
  by rewrite He1.
Qed.

Lemma done_frame_with_text_is_text_then_close_witness :
  let st := sendMessage "u1" "x1" ["hi"] (initial agent0) in
  deliver
    (wire "{'type':'chat-response','id':'x1','body':'{\'type\':\'start\',\'messageId\':\'a1\'}','done':true}")
    st
  = deliver
      (wire "{'type':'chat-response','id':'x1','body':'','done':true}")
      (deliver
         (wire "{'type':'chat-response','id':'x1','body':'{\'type\':\'start\',\'messageId\':\'a1\'}'}")
         st).
Proof.
  intros st.
  apply (done_frame_with_text_is_text_then_close 0 (new_exchange "x1" None)
           [0] st _ _ _ (wire "{'type':'start','messageId':'a1'}")
           (JObj [("type", JStr "chat-response"); ("id", JStr "x1");
                  ("body", JStr (wire "{'type':'start','messageId':'a1'}"));
                  ("done", JBool true)])
           (JObj [("type", JStr "chat-response"); ("id", JStr "x1");
                  ("body", JStr ""); ("done", JBool true)])).
  - split_ands; try (vm_compute; reflexivity).
    + apply NoDup_singleton.
    + by left.
    + intros m ->%list_elem_of_singleton. cbn. lia.
    + by exists loop0.
    + intros m ->%list_elem_of_singleton. done.
  - by_computation.
  - reflexivity.
  - reflexivity.
  - reflexivity.
  - vm_compute. reflexivity.
  - exists (JObj [("type", JStr "chat-response"); ("id", JStr "x1");
                  ("body",
                   JStr (wire "{'type':'start','messageId':'a1'}"))]).
    split; [by_computation |]. by_computation.
  - by_computation.
  - reflexivity.
  - reflexivity.
  - reflexivity.
Defined.

(** The status is one for the whole client: when the closing frame of one
    exchange arrives while another is in flight, the status becomes
    ["ready"] although the other exchange is still streaming, and that
    exchange goes on as before. *)
Theorem status_ready_while_streaming
    (n m : nat) (e e' : Exchange) (ks : list nat) (raw : string)
    (data : json) (st : State) :
  in_flight n e ks st → in_flight m e' ks st →
  x_id e ≠ x_id e' →
  is_chat_response raw data (x_id e) →
  truthy_opt (get "error" data) = false →
  truthy_opt (get "done" data) = true →
  no_body data →
  status (deliver raw st) = StatusReady
  ∧ in_flight m e' (filter (λ k, k ≠ n) ks) (deliver raw st).
Proof.
  intros Hf Hf' Hne Hr Herr Hdone Hnb.
  rewrite (in_flight_deliver n e ks raw data st Hf Hr).
  destruct Hf as (Hl & Hnd & Hn & Hlt & H & Hc & (l & Hrd) & _).
  destruct Hf' as (_ & _ & Hm & _ & H' & Hc' & Hrd' & Hu' & Hid' & Hks').
  assert (m ≠ n) as Hmn by (intros ->; congruence).
  destruct (onMessage_done_frame n e l raw data st H Hc Hrd Hr Herr Hdone Hnb)
    as (Hex & Hst & _ & _ & _ & Hls & Hids & _).
  split; [done |].
  assert (ids (onMessage n raw st) = ids st) as Hi.
  { unfold ids. rewrite Hex. by apply (fmap_insert_same x_id _ _ e). }
  unfold in_flight. rewrite Hi, Hls, Hids, Hex, Hl, filter_listeners.
  split; [done |]. split; [by apply NoDup_filter |].
  split; [by apply list_elem_of_filter |]. split.
  { intros k [_ Hk]%list_elem_of_filter. rewrite length_insert.
    by apply Hlt. }
  split; [by rewrite list_lookup_insert_ne |].
  split; [done |]. split; [done |]. split; [done |].
  split; [set_solver |].
  intros k [_ Hk]%list_elem_of_filter Hkm. by apply Hks'.
Qed.

Lemma status_ready_while_streaming_witness :
  let st := sendMessage "u2" "x2" ["more"]
              (sendMessage "u1" "x1" ["hi"] (initial agent0)) in
  let raw := wire "{'type':'chat-response','id':'x1','body':'','done':true}" in
  status (deliver raw st) = StatusReady
  ∧ in_flight 1 (new_exchange "x2" None) (filter (λ k, k ≠ 0) [0; 1])
      (deliver raw st).
Proof.
  intros st raw.
  apply (status_ready_while_streaming 0 1 (new_exchange "x1" None)
           (new_exchange "x2" None) [0; 1] raw
           (JObj [("type", JStr "chat-response"); ("id", JStr "x1");
                  ("body", JStr ""); ("done", JBool true)]) st).
  - split_ands; try (vm_compute; reflexivity).
    + apply NoDup_cons. split; [| apply NoDup_singleton].
      by intros ?%list_elem_of_singleton.
    + by left.
    + intros k [-> | ->%list_elem_of_singleton]%elem_of_cons; cbn; lia.
    + by exists loop0.
    + intros k [-> | ->%list_elem_of_singleton]%elem_of_cons; done.
  - split_ands; try (vm_compute; reflexivity).
    + apply NoDup_cons. split; [| apply NoDup_singleton].
      by intros ?%list_elem_of_singleton.
    + right. by left.
    + intros k [-> | ->%list_elem_of_singleton]%elem_of_cons; cbn; lia.
    + by exists loop0.
    + intros k [-> | ->%list_elem_of_singleton]%elem_of_cons; done.
  - done.
  - by_computation.
  - reflexivity.
  - reflexivity.
  - reflexivity.
Defined.
